(** * Prescription analyzer: the record schema of [app/models.py]

    The source file declares two enumerations, five persistent (table)
    classes and twelve transient shapes.  Each class is embedded as data: the
    list of its annotated attributes with the keyword arguments of their
    [Field(...)] call, in the order of the source.  Validation is the
    interpreter of these declarations: it walks the fields of a class in
    order, takes the caller's value or the declared default, and checks the
    declared constraints, collecting one error per violation.

    Validation is what [cls.model_validate(input)] does with the declarations
    of a class, table class or not.  Values are taken as Python hands them
    over: an int, a str, a Decimal (a float literal is the decimal it
    prints as: [1.5] is 15e-1), a datetime, an enum member, a list or a
    mapping; a value of another type than the annotation takes is a type
    error.  The persistence operations are not in the source; they are
    modelled in the section on the store. *)

From Stdlib Require Import ZArith Ascii String Sorted Permutation.
From stdpp Require Import base strings list gmap.

Set Warnings "-register-all".

Local Open Scope string_scope.
Local Open Scope list_scope.
Local Open Scope Z_scope.

(** ** Enumerations (models.py, lines 9-24) *)

Inductive AnalysisStatus := PENDING | PROCESSING | COMPLETED | FAILED.

Inductive MedicationType :=
  TABLET | CAPSULE | SYRUP | INJECTION | DROPS | CREAM | OINTMENT | OTHER.

Module AnalysisStatus_.
(** The members in definition order, as iterating the class gives them. *)
Definition members : list AnalysisStatus :=
  [PENDING; PROCESSING; COMPLETED; FAILED].

Definition value (m : AnalysisStatus) : string :=
  match m with
  | PENDING => "pending"
  | PROCESSING => "processing"
  | COMPLETED => "completed"
  | FAILED => "failed"
  end.

(** [AnalysisStatus(s)]: the member whose value is [s], if any. *)
Definition of_value (s : string) : option AnalysisStatus :=
  List.find (fun m => String.eqb (value m) s) members.
End AnalysisStatus_.

Module MedicationType_.
Definition members : list MedicationType :=
  [TABLET; CAPSULE; SYRUP; INJECTION; DROPS; CREAM; OINTMENT; OTHER].

Definition value (m : MedicationType) : string :=
  match m with
  | TABLET => "tablet"
  | CAPSULE => "capsule"
  | SYRUP => "syrup"
  | INJECTION => "injection"
  | DROPS => "drops"
  | CREAM => "cream"
  | OINTMENT => "ointment"
  | OTHER => "other"
  end.

Definition of_value (s : string) : option MedicationType :=
  List.find (fun m => String.eqb (value m) s) members.
End MedicationType_.

(** ** Decimal numbers

    A finite [decimal.Decimal]: [coefficient * 10 ^ exponent], exact. *)

Record Decimal := mkDecimal { coefficient : Z; exponent : Z }.

(** The coefficient of [d] once it is written with exponent [e <= exponent d]. *)
Definition Dscale (d : Decimal) (e : Z) : Z :=
  coefficient d * 10 ^ (exponent d - e).

Definition Dcompare (a b : Decimal) : comparison :=
  let e := Z.min (exponent a) (exponent b) in
  Z.compare (Dscale a e) (Dscale b e).

Definition Dltb (a b : Decimal) : bool :=
  match Dcompare a b with Lt => true | _ => false end.
Definition Dleb (a b : Decimal) : bool :=
  match Dcompare a b with Gt => false | _ => true end.

Arguments Dltb : simpl never.
Arguments Dleb : simpl never.

Definition Dlt (a b : Decimal) : Prop := Dcompare a b = Lt.
Definition Dle (a b : Decimal) : Prop := Dcompare a b <> Gt.

Definition Dint (n : Z) : Decimal := mkDecimal n 0.

(** The literals [0.0] and [1.0] of the source's bounds. *)
Definition D0_0 : Decimal := mkDecimal 0 (-1).
Definition D1_0 : Decimal := mkDecimal 10 (-1).

(** [d] has no non-zero digit after its [p]-th decimal place. *)
Definition within_decimal_places (p : nat) (d : Decimal) : bool :=
  if (- Z.of_nat p <=? exponent d) then true
  else coefficient d mod 10 ^ (- exponent d - Z.of_nat p) =? 0.

(** ** Values

    What a caller can pass for an attribute and what a validated instance
    holds.  [datetime] counts microseconds, the resolution of Python's
    [datetime]. *)

Definition datetime := Z.

Inductive value :=
| VNone
| VBool (b : bool)
| VInt (n : Z)
| VStr (s : string)
| VDecimal (d : Decimal)
| VDatetime (t : datetime)
| VAnalysisStatus (m : AnalysisStatus)
| VMedicationType (m : MedicationType)
| VList (l : list value)
| VDict (kv : list (string * value))
| VModel (cls : string) (attrs : list (string * value)).

(** ** Field declarations *)

Inductive factory := utcnow.

Inductive sa_type := JSON.

(** One keyword argument of a [Field(...)] call. *)
Inductive kwarg :=
| default (v : value)
| default_factory (f : factory)
| primary_key (b : bool)
| unique (b : bool)
| foreign_key (target : string)
| max_length (n : nat)
| gt (bound : Decimal)
| ge (bound : Decimal)
| le (bound : Decimal)
| decimal_places (n : nat)
| sa_column (c : sa_type).

(** The annotation of an attribute. *)
Inductive annotation :=
| T_int
| T_str
| T_bool
| T_datetime
| T_Decimal
| T_AnalysisStatus
| T_MedicationType
| Optional (t : annotation)
| ListOf (t : annotation)
| Dict_str_Any
| T_Model (cls : string) (fields : list (string * (annotation * list kwarg))).

Definition field : Type := string * (annotation * list kwarg).

Definition Field (name : string) (t : annotation) (kw : list kwarg) : field :=
  (name, (t, kw)).

(** A [Relationship(back_populates=...)] attribute: its name, the class it
    points to, whether it is a list, and the attribute on the other side. *)
Record relationship := Relationship {
  rel_name : string;
  rel_target : string;
  rel_many : bool;
  back_populates : string
}.

Record SQLModel := mkModel {
  cls_name : string;
  table : bool;
  tablename : option string;
  model_fields : list field;
  relationships : list relationship
}.

Definition field_names (c : SQLModel) : list string := (model_fields c).*1.

Definition relationship_names (c : SQLModel) : list string :=
  rel_name <$> relationships c.

(** Every attribute the class body declares. *)
Definition attribute_names (c : SQLModel) : list string :=
  field_names c ++ relationship_names c.

Definition as_annotation (c : SQLModel) : annotation :=
  T_Model (cls_name c) (model_fields c).

(** ** Validation errors *)

Inductive error_type :=
| missing
| int_type
| string_type
| bool_type
| datetime_type
| decimal_type
| enum_type
| list_type
| dict_type
| model_type
| greater_than
| greater_than_equal
| less_than_equal
| string_too_long
| decimal_max_places
| unique_violation.

Inductive loc_item := LField (name : string) | LIndex (i : nat).

(** One line of a [ValidationError]: where, and which constraint. *)
Record ErrorDetails := mkError { loc : list loc_item; type_ : error_type }.

Inductive Result (A : Type) :=
| Valid (a : A)
| Invalid (errors : list ErrorDetails).
Arguments Valid {A} a.
Arguments Invalid {A} errors.

Definition at_loc (i : loc_item) (e : ErrorDetails) : ErrorDetails :=
  mkError (i :: loc e) (type_ e).

(** The error is reported for the attribute [name] of the validated class. *)
Definition names_field (name : string) (e : ErrorDetails) : Prop :=
  head (loc e) = Some (LField name).

Definition fail {A} (t : error_type) : Result A := Invalid [mkError [] t].

(** ** The clock

    [datetime.utcnow] reads a clock the program does not control: the clock is
    the sequence of its future readings, and each call consumes one. *)

Record Clock := mkClock { readings : nat -> datetime; ticks : nat }.

Definition now (c : Clock) : datetime := readings c (ticks c).

Definition call_factory (f : factory) (c : Clock) : value * Clock :=
  match f with
  | utcnow => (VDatetime (now c), mkClock (readings c) (S (ticks c)))
  end.

(** ** Reading the keyword arguments *)

Inductive Default := Required | DefaultValue (v : value) | DefaultFactory (f : factory).

Fixpoint get_default (kw : list kwarg) : Default :=
  match kw with
  | [] => Required
  | default v :: _ => DefaultValue v
  | default_factory f :: _ => DefaultFactory f
  | _ :: kw' => get_default kw'
  end.

Fixpoint get_max_length (kw : list kwarg) : option nat :=
  match kw with
  | [] => None
  | max_length n :: _ => Some n
  | _ :: kw' => get_max_length kw'
  end.

Fixpoint get_decimal_places (kw : list kwarg) : option nat :=
  match kw with
  | [] => None
  | decimal_places n :: _ => Some n
  | _ :: kw' => get_decimal_places kw'
  end.

Fixpoint get_foreign_key (kw : list kwarg) : option string :=
  match kw with
  | [] => None
  | foreign_key s :: _ => Some s
  | _ :: kw' => get_foreign_key kw'
  end.

Fixpoint is_unique (kw : list kwarg) : bool :=
  match kw with
  | [] => false
  | unique b :: _ => b
  | _ :: kw' => is_unique kw'
  end.

Fixpoint is_primary_key (kw : list kwarg) : bool :=
  match kw with
  | [] => false
  | primary_key b :: _ => b
  | _ :: kw' => is_primary_key kw'
  end.

(** The errors of the numeric bounds [gt], [ge], [le] on the number [d]. *)
Fixpoint check_bounds (kw : list kwarg) (d : Decimal) : list ErrorDetails :=
  match kw with
  | [] => []
  | gt b :: kw' =>
      (if Dltb b d then [] else [mkError [] greater_than]) ++ check_bounds kw' d
  | ge b :: kw' =>
      (if Dleb b d then [] else [mkError [] greater_than_equal]) ++ check_bounds kw' d
  | le b :: kw' =>
      (if Dleb d b then [] else [mkError [] less_than_equal]) ++ check_bounds kw' d
  | _ :: kw' => check_bounds kw' d
  end.

Definition check_decimal_places (kw : list kwarg) (d : Decimal) : list ErrorDetails :=
  match get_decimal_places kw with
  | Some p => if within_decimal_places p d then [] else [mkError [] decimal_max_places]
  | None => []
  end.

Definition check_max_length (kw : list kwarg) (s : string) : list ErrorDetails :=
  match get_max_length kw with
  | Some n => if (String.length s <=? n)%nat then [] else [mkError [] string_too_long]
  | None => []
  end.

Definition checked {A} (a : A) (errors : list ErrorDetails) : Result A :=
  match errors with
  | [] => Valid a
  | _ => Invalid errors
  end.

(** ** Validation of one value against an annotation *)

Definition validate_int (kw : list kwarg) (v : value) : Result value :=
  match v with
  | VInt n => checked (VInt n) (check_bounds kw (Dint n))
  | _ => fail int_type
  end.

Definition validate_str (kw : list kwarg) (v : value) : Result value :=
  match v with
  | VStr s => checked (VStr s) (check_max_length kw s)
  | _ => fail string_type
  end.

Definition validate_bool (v : value) : Result value :=
  match v with
  | VBool b => Valid (VBool b)
  | _ => fail bool_type
  end.

Definition validate_datetime (v : value) : Result value :=
  match v with
  | VDatetime t => Valid (VDatetime t)
  | _ => fail datetime_type
  end.

(** A Decimal attribute takes a Decimal or an int (read as a Decimal with
    exponent 0). *)
Definition as_decimal (v : value) : option Decimal :=
  match v with
  | VDecimal d => Some d
  | VInt n => Some (Dint n)
  | _ => None
  end.

Definition validate_Decimal (kw : list kwarg) (v : value) : Result value :=
  match as_decimal v with
  | Some d => checked (VDecimal d) (check_bounds kw d ++ check_decimal_places kw d)
  | None => fail decimal_type
  end.

(** An enum attribute takes a member or the string value of a member. *)
Definition validate_AnalysisStatus (v : value) : Result value :=
  match v with
  | VAnalysisStatus m => Valid (VAnalysisStatus m)
  | VStr s =>
      match AnalysisStatus_.of_value s with
      | Some m => Valid (VAnalysisStatus m)
      | None => fail enum_type
      end
  | _ => fail enum_type
  end.

Definition validate_MedicationType (v : value) : Result value :=
  match v with
  | VMedicationType m => Valid (VMedicationType m)
  | VStr s =>
      match MedicationType_.of_value s with
      | Some m => Valid (VMedicationType m)
      | None => fail enum_type
      end
  | _ => fail enum_type
  end.

(** The value a mapping holds under [name]. *)
Fixpoint get (name : string) (kv : list (string * value)) : option value :=
  match kv with
  | [] => None
  | (k, v) :: kv' => if String.eqb k name then Some v else get name kv'
  end.

Definition map_result {A B} (f : A -> B) (r : Result A) : Result B :=
  match r with
  | Valid a => Valid (f a)
  | Invalid es => Invalid es
  end.

Definition errors_of {A} (r : Result A) : list ErrorDetails :=
  match r with
  | Valid _ => []
  | Invalid es => es
  end.

(** The outcome of an attribute before the outcome of the attributes after
    it: the instance is built only when all are valid, the errors add up. *)
Definition cons_result {A} (i : loc_item) (r : Result value)
    (mk : value -> A) (rest : Result (list A)) : Result (list A) :=
  match r, rest with
  | Valid v, Valid l => Valid (mk v :: l)
  | _, _ => Invalid ((at_loc i <$> errors_of r) ++ errors_of rest)
  end.

Section Validators.
Variable val : annotation -> list kwarg -> value -> Clock -> Result value * Clock.

(** The attribute's value: the caller's, validated, or else the default. *)
Definition validate_field (f : field) (kv : list (string * value)) (c : Clock)
    : Result value * Clock :=
  let '(name, (t, kw)) := f in
  match get name kv with
  | Some v => val t kw v c
  | None =>
      match get_default kw with
      | DefaultValue v => (Valid v, c)
      | DefaultFactory fn => let '(v, c') := call_factory fn c in (Valid v, c')
      | Required => (fail missing, c)
      end
  end.

Fixpoint validate_fields (fs : list field) (kv : list (string * value)) (c : Clock)
    : Result (list (string * value)) * Clock :=
  match fs with
  | [] => (Valid [], c)
  | f :: fs' =>
      let '(r, c1) := validate_field f kv c in
      let '(rs, c2) := validate_fields fs' kv c1 in
      (cons_result (LField f.1) r (fun v => (f.1, v)) rs, c2)
  end.

Fixpoint validate_items (t : annotation) (i : nat) (vs : list value) (c : Clock)
    : Result (list value) * Clock :=
  match vs with
  | [] => (Valid [], c)
  | v :: vs' =>
      let '(r, c1) := val t [] v c in
      let '(rs, c2) := validate_items t (S i) vs' c1 in
      (cons_result (LIndex i) r id rs, c2)
  end.
End Validators.

Fixpoint validate (t : annotation) (kw : list kwarg) (v : value) (c : Clock)
    {struct t} : Result value * Clock :=
  match t with
  | T_int => (validate_int kw v, c)
  | T_str => (validate_str kw v, c)
  | T_bool => (validate_bool v, c)
  | T_datetime => (validate_datetime v, c)
  | T_Decimal => (validate_Decimal kw v, c)
  | T_AnalysisStatus => (validate_AnalysisStatus v, c)
  | T_MedicationType => (validate_MedicationType v, c)
  | Optional t' =>
      match v with
      | VNone => (Valid VNone, c)
      | _ => validate t' kw v c
      end
  | ListOf t' =>
      match v with
      | VList vs =>
          let '(r, c') := validate_items validate t' 0 vs c in
          (map_result VList r, c')
      | _ => (fail list_type, c)
      end
  | Dict_str_Any =>
      match v with
      | VDict kv => (Valid (VDict kv), c)
      | _ => (fail dict_type, c)
      end
  | T_Model cls fs =>
      match v with
      | VDict kv =>
          let '(r, c') := validate_fields validate fs kv c in
          (map_result (VModel cls) r, c')
      | VModel cls' attrs =>
          if String.eqb cls cls' then (Valid v, c) else (fail model_type, c)
      | _ => (fail model_type, c)
      end
  end.

(** [cls.model_validate(input)]: the instance, or the validation errors. *)
Definition model_validate (cls : SQLModel) (input : list (string * value)) (c : Clock)
    : Result (list (string * value)) * Clock :=
  validate_fields validate (model_fields cls) input c.

(** ** The classes of models.py

    One definition per class, one [Field] per annotated attribute, in source
    order.  An attribute without a [Field(...)] call has no keyword argument.
    The integer bounds of the source ([gt=0], [ge=0], [le=150]) are [Dint];
    its float bounds [0.0] and [1.0] are [D0_0] and [D1_0]. *)

Definition User : SQLModel := mkModel "User" true (Some "users")
  [ Field "id" (Optional T_int) [default VNone; primary_key true];
    Field "name" T_str [max_length 100];
    Field "email" T_str [unique true; max_length 255];
    Field "is_active" T_bool [default (VBool true)];
    Field "created_at" T_datetime [default_factory utcnow];
    Field "updated_at" T_datetime [default_factory utcnow] ]
  [ Relationship "prescription_images" "PrescriptionImage" true "user";
    Relationship "analysis_sessions" "AnalysisSession" true "user" ].

Definition PrescriptionImage : SQLModel :=
  mkModel "PrescriptionImage" true (Some "prescription_images")
  [ Field "id" (Optional T_int) [default VNone; primary_key true];
    Field "filename" T_str [max_length 255];
    Field "original_filename" T_str [max_length 255];
    Field "file_path" T_str [max_length 500];
    Field "file_size" T_int [gt (Dint 0)];
    Field "mime_type" T_str [max_length 100];
    Field "width" (Optional T_int) [default VNone; ge (Dint 0)];
    Field "height" (Optional T_int) [default VNone; ge (Dint 0)];
    Field "upload_timestamp" T_datetime [default_factory utcnow];
    Field "user_id" T_int [foreign_key "users.id"] ]
  [ Relationship "user" "User" false "prescription_images";
    Relationship "prescriptions" "Prescription" true "image";
    Relationship "analysis_sessions" "AnalysisSession" true "image" ].

Definition AnalysisSession : SQLModel :=
  mkModel "AnalysisSession" true (Some "analysis_sessions")
  [ Field "id" (Optional T_int) [default VNone; primary_key true];
    Field "status" T_AnalysisStatus [default (VAnalysisStatus PENDING)];
    Field "started_at" T_datetime [default_factory utcnow];
    Field "completed_at" (Optional T_datetime) [default VNone];
    Field "processing_time_seconds" (Optional T_Decimal) [default VNone; decimal_places 3];
    Field "model_name" T_str [default (VStr "gemini-flash"); max_length 100];
    Field "model_version" (Optional T_str) [default VNone; max_length 50];
    Field "error_message" (Optional T_str) [default VNone; max_length 1000];
    Field "error_code" (Optional T_str) [default VNone; max_length 50];
    Field "raw_response" (Optional Dict_str_Any) [default (VDict []); sa_column JSON];
    Field "confidence_score" (Optional T_Decimal)
      [default VNone; decimal_places 3; ge D0_0; le D1_0];
    Field "user_id" T_int [foreign_key "users.id"];
    Field "image_id" T_int [foreign_key "prescription_images.id"] ]
  [ Relationship "user" "User" false "analysis_sessions";
    Relationship "image" "PrescriptionImage" false "analysis_sessions";
    Relationship "prescriptions" "Prescription" true "analysis_session" ].

Definition Prescription : SQLModel :=
  mkModel "Prescription" true (Some "prescriptions")
  [ Field "id" (Optional T_int) [default VNone; primary_key true];
    Field "doctor_name" (Optional T_str) [default VNone; max_length 200];
    Field "doctor_license" (Optional T_str) [default VNone; max_length 100];
    Field "clinic_name" (Optional T_str) [default VNone; max_length 200];
    Field "clinic_address" (Optional T_str) [default VNone; max_length 500];
    Field "patient_name" (Optional T_str) [default VNone; max_length 200];
    Field "patient_age" (Optional T_int) [default VNone; ge (Dint 0); le (Dint 150)];
    Field "patient_gender" (Optional T_str) [default VNone; max_length 20];
    Field "prescription_date" (Optional T_datetime) [default VNone];
    Field "prescription_number" (Optional T_str) [default VNone; max_length 100];
    Field "diagnosis" (Optional T_str) [default VNone; max_length 1000];
    Field "notes" (Optional T_str) [default VNone; max_length 2000];
    Field "created_at" T_datetime [default_factory utcnow];
    Field "updated_at" T_datetime [default_factory utcnow];
    Field "image_id" T_int [foreign_key "prescription_images.id"];
    Field "analysis_session_id" T_int [foreign_key "analysis_sessions.id"] ]
  [ Relationship "image" "PrescriptionImage" false "prescriptions";
    Relationship "analysis_session" "AnalysisSession" false "prescriptions";
    Relationship "medications" "Medication" true "prescription" ].

Definition Medication : SQLModel :=
  mkModel "Medication" true (Some "medications")
  [ Field "id" (Optional T_int) [default VNone; primary_key true];
    Field "name" T_str [max_length 200];
    Field "generic_name" (Optional T_str) [default VNone; max_length 200];
    Field "brand_name" (Optional T_str) [default VNone; max_length 200];
    Field "medication_type" (Optional T_MedicationType) [default VNone];
    Field "strength" (Optional T_str) [default VNone; max_length 100];
    Field "dosage_form" (Optional T_str) [default VNone; max_length 100];
    Field "dosage_instructions" (Optional T_str) [default VNone; max_length 500];
    Field "frequency" (Optional T_str) [default VNone; max_length 200];
    Field "duration" (Optional T_str) [default VNone; max_length 200];
    Field "quantity" (Optional T_str) [default VNone; max_length 100];
    Field "before_after_meal" (Optional T_str) [default VNone; max_length 100];
    Field "special_instructions" (Optional T_str) [default VNone; max_length 1000];
    Field "order_index" T_int [default (VInt 0); ge (Dint 0)];
    Field "confidence_score" (Optional T_Decimal)
      [default VNone; decimal_places 3; ge D0_0; le D1_0];
    Field "created_at" T_datetime [default_factory utcnow];
    Field "prescription_id" T_int [foreign_key "prescriptions.id"] ]
  [ Relationship "prescription" "Prescription" false "medications" ].

(** Non-persistent schemas. *)

Definition UserCreate : SQLModel := mkModel "UserCreate" false None
  [ Field "name" T_str [max_length 100];
    Field "email" T_str [max_length 255] ]
  [].

Definition UserResponse : SQLModel := mkModel "UserResponse" false None
  [ Field "id" T_int [];
    Field "name" T_str [];
    Field "email" T_str [];
    Field "is_active" T_bool [];
    Field "created_at" T_str [] ]
  [].

Definition PrescriptionImageUpload : SQLModel :=
  mkModel "PrescriptionImageUpload" false None
  [ Field "filename" T_str [max_length 255];
    Field "file_size" T_int [gt (Dint 0)];
    Field "mime_type" T_str [max_length 100];
    Field "width" (Optional T_int) [default VNone; ge (Dint 0)];
    Field "height" (Optional T_int) [default VNone; ge (Dint 0)] ]
  [].

Definition PrescriptionImageResponse : SQLModel :=
  mkModel "PrescriptionImageResponse" false None
  [ Field "id" T_int [];
    Field "filename" T_str [];
    Field "original_filename" T_str [];
    Field "file_size" T_int [];
    Field "mime_type" T_str [];
    Field "width" (Optional T_int) [];
    Field "height" (Optional T_int) [];
    Field "upload_timestamp" T_str [] ]
  [].

Definition AnalysisSessionCreate : SQLModel :=
  mkModel "AnalysisSessionCreate" false None
  [ Field "image_id" T_int [];
    Field "model_name" T_str [default (VStr "gemini-flash"); max_length 100];
    Field "model_version" (Optional T_str) [default VNone; max_length 50] ]
  [].

Definition AnalysisSessionResponse : SQLModel :=
  mkModel "AnalysisSessionResponse" false None
  [ Field "id" T_int [];
    Field "status" T_AnalysisStatus [];
    Field "started_at" T_str [];
    Field "completed_at" (Optional T_str) [];
    Field "processing_time_seconds" (Optional T_Decimal) [];
    Field "model_name" T_str [];
    Field "confidence_score" (Optional T_Decimal) [];
    Field "error_message" (Optional T_str) [] ]
  [].

Definition MedicationCreate : SQLModel := mkModel "MedicationCreate" false None
  [ Field "name" T_str [max_length 200];
    Field "generic_name" (Optional T_str) [default VNone; max_length 200];
    Field "brand_name" (Optional T_str) [default VNone; max_length 200];
    Field "medication_type" (Optional T_MedicationType) [default VNone];
    Field "strength" (Optional T_str) [default VNone; max_length 100];
    Field "dosage_form" (Optional T_str) [default VNone; max_length 100];
    Field "dosage_instructions" (Optional T_str) [default VNone; max_length 500];
    Field "frequency" (Optional T_str) [default VNone; max_length 200];
    Field "duration" (Optional T_str) [default VNone; max_length 200];
    Field "quantity" (Optional T_str) [default VNone; max_length 100];
    Field "before_after_meal" (Optional T_str) [default VNone; max_length 100];
    Field "special_instructions" (Optional T_str) [default VNone; max_length 1000];
    Field "order_index" T_int [default (VInt 0); ge (Dint 0)];
    Field "confidence_score" (Optional T_Decimal)
      [default VNone; decimal_places 3; ge D0_0; le D1_0] ]
  [].

Definition MedicationResponse : SQLModel :=
  mkModel "MedicationResponse" false None
  [ Field "id" T_int [];
    Field "name" T_str [];
    Field "generic_name" (Optional T_str) [];
    Field "brand_name" (Optional T_str) [];
    Field "medication_type" (Optional T_MedicationType) [];
    Field "strength" (Optional T_str) [];
    Field "dosage_form" (Optional T_str) [];
    Field "dosage_instructions" (Optional T_str) [];
    Field "frequency" (Optional T_str) [];
    Field "duration" (Optional T_str) [];
    Field "quantity" (Optional T_str) [];
    Field "before_after_meal" (Optional T_str) [];
    Field "special_instructions" (Optional T_str) [];
    Field "order_index" T_int [];
    Field "confidence_score" (Optional T_Decimal) [] ]
  [].

Definition PrescriptionCreate : SQLModel :=
  mkModel "PrescriptionCreate" false None
  [ Field "doctor_name" (Optional T_str) [default VNone; max_length 200];
    Field "doctor_license" (Optional T_str) [default VNone; max_length 100];
    Field "clinic_name" (Optional T_str) [default VNone; max_length 200];
    Field "clinic_address" (Optional T_str) [default VNone; max_length 500];
    Field "patient_name" (Optional T_str) [default VNone; max_length 200];
    Field "patient_age" (Optional T_int) [default VNone; ge (Dint 0); le (Dint 150)];
    Field "patient_gender" (Optional T_str) [default VNone; max_length 20];
    Field "prescription_date" (Optional T_datetime) [default VNone];
    Field "prescription_number" (Optional T_str) [default VNone; max_length 100];
    Field "diagnosis" (Optional T_str) [default VNone; max_length 1000];
    Field "notes" (Optional T_str) [default VNone; max_length 2000];
    Field "image_id" T_int [];
    Field "analysis_session_id" T_int [];
    Field "medications" (ListOf (as_annotation MedicationCreate)) [default (VList [])] ]
  [].

Definition PrescriptionResponse : SQLModel :=
  mkModel "PrescriptionResponse" false None
  [ Field "id" T_int [];
    Field "doctor_name" (Optional T_str) [];
    Field "doctor_license" (Optional T_str) [];
    Field "clinic_name" (Optional T_str) [];
    Field "clinic_address" (Optional T_str) [];
    Field "patient_name" (Optional T_str) [];
    Field "patient_age" (Optional T_int) [];
    Field "patient_gender" (Optional T_str) [];
    Field "prescription_date" (Optional T_str) [];
    Field "prescription_number" (Optional T_str) [];
    Field "diagnosis" (Optional T_str) [];
    Field "notes" (Optional T_str) [];
    Field "created_at" T_str [];
    Field "medications" (ListOf (as_annotation MedicationResponse)) [default (VList [])] ]
  [].

Definition PrescriptionAnalysisResult : SQLModel :=
  mkModel "PrescriptionAnalysisResult" false None
  [ Field "session" (as_annotation AnalysisSessionResponse) [];
    Field "prescription" (Optional (as_annotation PrescriptionResponse)) [];
    Field "image" (as_annotation PrescriptionImageResponse) [] ]
  [].

(** The table classes, as the metadata of the schema lists them. *)
Definition metadata : list SQLModel :=
  [User; PrescriptionImage; AnalysisSession; Prescription; Medication].

(** The request shapes callers fill in to create a row, each with the table
    class it is for. *)
Definition create_shapes : list (SQLModel * SQLModel) :=
  [ (UserCreate, User);
    (PrescriptionImageUpload, PrescriptionImage);
    (AnalysisSessionCreate, AnalysisSession);
    (MedicationCreate, Medication);
    (PrescriptionCreate, Prescription) ].

(** The attributes the server assigns: the primary key and the timestamps
    taken at construction. *)
Definition server_assigned : list string :=
  ["id"; "created_at"; "updated_at"; "started_at"; "upload_timestamp"].

(** ** The store

    The persistence operations are modelled from the spec.  models.py declares
    the tables, their unique columns and their foreign keys, and no operation
    on them; the spec (sections 6 and 7) names create, get-by-id,
    list-by-parent-foreign-key and update, says that a proposed write is
    validated before persistence, that a duplicate of a unique column is a
    ValidationError, that a foreign key without a parent row is a
    ReferentialError surfaced before the write, and that nothing is deleted.
    The operations below do that and no more; which columns are unique and
    which are foreign keys is read from the declarations of the source. *)

Definition Row : Type := list (string * value).

(** Table name to rows, in insertion order. *)
Abbreviation Store := (gmap string (list Row)).

Definition State : Type := Store * Clock.

Definition rows (s : Store) (tbl : string) : list Row :=
  from_option id [] (s !! tbl).

Inductive Error :=
| ValidationError (errors : list ErrorDetails)
| ReferentialError (attr : string) (target : string)
| NotFound
| NotATable.

Inductive Outcome :=
| Written (row : Row)
| Failed (e : Error).

(** Equality of two column values of a scalar column. *)
Definition column_eqb (a b : value) : bool :=
  match a, b with
  | VInt x, VInt y => x =? y
  | VStr x, VStr y => String.eqb x y
  | _, _ => false
  end.

Definition column (name : string) (r : Row) : value :=
  from_option id VNone (get name r).

(** ["users.id"] is the column [id] of the table [users]. *)
Fixpoint split_dot (s : string) : string * string :=
  match s with
  | EmptyString => (EmptyString, EmptyString)
  | String a r =>
      if Ascii.eqb a "."%char then (EmptyString, r)
      else let '(x, y) := split_dot r in (String a x, y)
  end.

Fixpoint set_attr (name : string) (v : value) (r : Row) : Row :=
  match r with
  | [] => [(name, v)]
  | (k, x) :: r' =>
      if String.eqb k name then (k, v) :: r' else (k, x) :: set_attr name v r'
  end.

Definition has_id (i : Z) (r : Row) : bool := column_eqb (column "id" r) (VInt i).

(** The parent row a foreign key value points to exists. *)
Definition parent_exists (s : Store) (target : string) (v : value) : bool :=
  let '(tbl, col) := split_dot target in
  existsb (fun p => column_eqb (column col p) v) (rows s tbl).

(** The first foreign key of [r] that has no parent row, if any. *)
Fixpoint dangling (s : Store) (fs : list field) (r : Row) : option (string * string) :=
  match fs with
  | [] => None
  | (name, (_, kw)) :: fs' =>
      match get_foreign_key kw with
      | Some target =>
          match column name r with
          | VNone => dangling s fs' r
          | v => if parent_exists s target v then dangling s fs' r
                 else Some (name, target)
          end
      | None => dangling s fs' r
      end
  end.

(** The unique columns of [r] whose value another row of [others] holds. *)
Fixpoint duplicates (others : list Row) (fs : list field) (r : Row) : list ErrorDetails :=
  match fs with
  | [] => []
  | (name, (_, kw)) :: fs' =>
      (if is_unique kw && existsb (fun o => column_eqb (column name o) (column name r)) others
       then [mkError [LField name] unique_violation] else [])
      ++ duplicates others fs' r
  end.

Definition next_id (rs : list Row) : Z := Z.of_nat (length rs) + 1.

(** Modelled from the spec: the write path, which models.py does not have.
    The checks of a proposed row against the store, in the order uniqueness
    (a ValidationError) then foreign keys (a ReferentialError), then the
    write; a refused row leaves the store as it was. *)
Definition write (cls : SQLModel) (tbl : string) (others : list Row) (r : Row)
    (commit : list Row) (s : Store) : Outcome * Store :=
  match duplicates others (model_fields cls) r with
  | e :: es => (Failed (ValidationError (e :: es)), s)
  | [] =>
      match dangling s (model_fields cls) r with
      | Some (attr, target) => (Failed (ReferentialError attr target), s)
      | None => (Written r, <[tbl := commit]> s)
      end
  end.

(** Modelled from the spec: create, which models.py does not have.  The
    input is validated as [cls]; the server assigns the primary key, the next
    integer of the table; the row is checked and appended. *)
Definition create (cls : SQLModel) (input : list (string * value)) (st : State)
    : Outcome * State :=
  let '(s, c) := st in
  match tablename cls with
  | None => (Failed NotATable, st)
  | Some tbl =>
      match model_validate cls input c with
      | (Invalid es, c') => (Failed (ValidationError es), (s, c'))
      | (Valid r, c') =>
          let r' := set_attr "id" (VInt (next_id (rows s tbl))) r in
          let '(o, s') := write cls tbl (rows s tbl) r' (rows s tbl ++ [r']) s in
          (o, (s', c'))
      end
  end.

(** Modelled from the spec: get-by-id, which models.py does not have. *)
Definition get_by_id (s : Store) (tbl : string) (i : Z) : option Row :=
  List.find (has_id i) (rows s tbl).

(** The stored row overridden by the changed attributes. *)
Definition merge (changes : list (string * value)) (r : Row) : list (string * value) :=
  changes ++ r.

(** Modelled from the spec: update of the attributes of a stored row, which
    models.py does not have.  The changed row is validated and checked as a
    created one is, against the other rows, and keeps its primary key. *)
Definition update (cls : SQLModel) (i : Z) (changes : list (string * value))
    (st : State) : Outcome * State :=
  let '(s, c) := st in
  match tablename cls with
  | None => (Failed NotATable, st)
  | Some tbl =>
      match get_by_id s tbl i with
      | None => (Failed NotFound, st)
      | Some old =>
          match model_validate cls (merge changes old) c with
          | (Invalid es, c') => (Failed (ValidationError es), (s, c'))
          | (Valid r, c') =>
              let r' := set_attr "id" (VInt i) r in
              let others := filter (fun o => negb (has_id i o)) (rows s tbl) in
              let commit := (fun o => if has_id i o then r' else o) <$> rows s tbl in
              let '(o, s') := write cls tbl others r' commit s in
              (o, (s', c'))
          end
      end
  end.

(** Modelled from the spec: list-by-parent-foreign-key, which models.py does
    not have. *)
Definition list_by_parent (s : Store) (tbl attr : string) (parent : Z) : list Row :=
  filter (fun r => column_eqb (column attr r) (VInt parent)) (rows s tbl).

Definition order_index_of (r : Row) : Z :=
  match column "order_index" r with
  | VInt n => n
  | _ => 0
  end.

Fixpoint insert_by_order (r : Row) (l : list Row) : list Row :=
  match l with
  | [] => [r]
  | x :: l' =>
      if order_index_of r <=? order_index_of x then r :: x :: l'
      else x :: insert_by_order r l'
  end.

(** Rows by ascending order_index. *)
Definition order_by_index (l : list Row) : list Row :=
  foldr insert_by_order [] l.

(** Modelled from the spec: the listing of the medications of a
    prescription, ordered by order_index, which models.py does not have (its
    relationship [medications] declares no order). *)
Definition list_medications (s : Store) (prescription_id : Z) : list Row :=
  order_by_index (list_by_parent s "medications" "prescription_id" prescription_id).

Inductive Op :=
| Create (cls : SQLModel) (input : list (string * value))
| Update (cls : SQLModel) (i : Z) (changes : list (string * value)).

Definition op_class (op : Op) : SQLModel :=
  match op with
  | Create cls _ => cls
  | Update cls _ _ => cls
  end.

Definition exec (op : Op) (st : State) : Outcome * State :=
  match op with
  | Create cls input => create cls input st
  | Update cls i changes => update cls i changes st
  end.

(** Modelled from the spec: the states the operations reach from the empty
    store, on the table classes of the schema. *)
Inductive reachable : State -> Prop :=
| reachable_empty (c : Clock) : reachable (∅, c)
| reachable_exec (op : Op) (st : State) :
    reachable st -> op_class op ∈ metadata -> reachable (exec op st).2.

(** ** Vocabulary of the statements *)

(** A clock that reads 0, 1, 2, ... microseconds. *)
Definition epoch_clock : Clock := mkClock Z.of_nat 0.

(** The string values an enum-typed annotation takes. *)
Fixpoint enum_values (t : annotation) : option (list string) :=
  match t with
  | T_AnalysisStatus => Some (AnalysisStatus_.value <$> AnalysisStatus_.members)
  | T_MedicationType => Some (MedicationType_.value <$> MedicationType_.members)
  | Optional t' => enum_values t'
  | _ => None
  end.

(** Validation of [input] as [cls] fails with an error naming [name]. *)
Definition rejected_for (cls : SQLModel) (input : list (string * value)) (c : Clock)
    (name : string) : Prop :=
  exists es c', model_validate cls input c = (Invalid es, c')
                /\ Exists (names_field name) es.

(** Validation of [input] as [cls] reports nothing for [name]. *)
Definition accepted_for (cls : SQLModel) (input : list (string * value)) (c : Clock)
    (name : string) : Prop :=
  Forall (fun e => ~ names_field name e) (errors_of (model_validate cls input c).1).

(** The attributes of a request shape that are no column of the table class. *)
Definition not_columns (shape entity : SQLModel) : list string :=
  filter (fun n => n ∉ field_names entity) (field_names shape).

(** The instance [model_validate] builds; empty when it builds none. *)
Definition model_validate_instance (cls : SQLModel) (input : list (string * value))
    (c : Clock) : list (string * value) :=
  match (model_validate cls input c).1 with
  | Valid r => r
  | Invalid _ => []
  end.

(** ** Integrity of the store *)

(** The table [tbl] holds a row whose primary key is [k]. *)
Definition row_exists (s : Store) (tbl : string) (k : Z) : Prop :=
  exists p, p ∈ rows s tbl /\ column "id" p = VInt k.

(** No two rows of [rs] hold the same value in the column [name]. *)
Definition unique_column (name : string) (rs : list Row) : Prop :=
  forall i j r1 r2,
    rs !! i = Some r1 -> rs !! j = Some r2 -> column name r1 = column name r2 -> i = j.

Definition emails_unique (s : Store) : Prop :=
  unique_column "email" (rows s "users")
  /\ forall r, r ∈ rows s "users" -> exists e, column "email" r = VStr e.

(** Every foreign key of every stored row is the primary key of a row of the
    table it points to. *)
Definition foreign_keys_hold (s : Store) : Prop :=
  forall cls tbl r name t kw target,
    cls ∈ metadata -> tablename cls = Some tbl -> r ∈ rows s tbl ->
    Field name t kw ∈ model_fields cls -> get_foreign_key kw = Some target ->
    exists k, column name r = VInt k
              /\ (split_dot target).2 = "id"
              /\ row_exists s (split_dot target).1 k.

(** The required int and str columns of a row hold an int and a str. *)
Definition required_typed (cls : SQLModel) (r : Row) : Prop :=
  forall name t kw,
    Field name t kw ∈ model_fields cls -> get_default kw = Required ->
    (t = T_int -> exists k, column name r = VInt k)
    /\ (t = T_str -> exists e, column name r = VStr e).

(** What the operations keep true of the store. *)
Record store_inv (s : Store) : Prop := mk_store_inv {
  inv_ids : forall cls tbl i r,
    cls ∈ metadata -> tablename cls = Some tbl -> rows s tbl !! i = Some r ->
    column "id" r = VInt (Z.of_nat i + 1);
  inv_typed : forall cls tbl r,
    cls ∈ metadata -> tablename cls = Some tbl -> r ∈ rows s tbl ->
    required_typed cls r;
  inv_unique : forall cls tbl name t kw,
    cls ∈ metadata -> tablename cls = Some tbl ->
    Field name t kw ∈ model_fields cls -> is_unique kw = true ->
    unique_column name (rows s tbl);
  inv_fk : forall cls tbl r,
    cls ∈ metadata -> tablename cls = Some tbl -> r ∈ rows s tbl ->
    dangling s (model_fields cls) r = None
}.

(** Every row of [s] is still there in [s'], by primary key. *)
Definition keeps_keys (s s' : Store) : Prop :=
  forall tbl p, p ∈ rows s tbl ->
    exists p', p' ∈ rows s' tbl /\ column "id" p' = column "id" p.


(** The input that creates a medication of a prescription from its name and
    its order index. *)
Definition medication_input (name : string) (order_index prescription_id : Z)
    : list (string * value) :=
  [("name", VStr name); ("order_index", VInt order_index);
   ("prescription_id", VInt prescription_id)].



(** The state after a sequence of operations. *)
Definition run (ops : list Op) (st : State) : State :=
  foldl (fun st op => (exec op st).2) st ops.

(** A user uploads an image, a session analyses it, a prescription is read
    from it. *)
Definition upload_and_analyse : list Op :=
  [ Create User [("name", VStr "Jane Doe"); ("email", VStr "jane@example.com")];
    Create PrescriptionImage
      [("filename", VStr "rx.png"); ("original_filename", VStr "scan.png");
       ("file_path", VStr "/uploads/rx.png"); ("file_size", VInt 1);
       ("mime_type", VStr "image/png"); ("user_id", VInt 1)];
    Create AnalysisSession
      [("image_id", VInt 1); ("model_name", VStr "gemini-flash"); ("user_id", VInt 1)];
    Create Prescription [("image_id", VInt 1); ("analysis_session_id", VInt 1)] ].

Definition analysed : State := run upload_and_analyse (∅, epoch_clock).

(** ** The schema as a whole *)

(** Every class of models.py, in source order. *)
Definition all_models : list SQLModel :=
  [ User; PrescriptionImage; AnalysisSession; Prescription; Medication;
    UserCreate; UserResponse; PrescriptionImageUpload; PrescriptionImageResponse;
    AnalysisSessionCreate; AnalysisSessionResponse; MedicationCreate;
    MedicationResponse; PrescriptionCreate; PrescriptionResponse;
    PrescriptionAnalysisResult ].



(** The annotation is [Optional[...]]. *)
Definition is_optional (t : annotation) : bool :=
  match t with
  | Optional _ => true
  | _ => false
  end.

(** The validated instance is an [Invalid] outcome or holds [v] under [name]. *)
Definition instance_holds (cls : SQLModel) (input : list (string * value)) (c : Clock)
    (name : string) (v : value) : Prop :=
  forall r c', model_validate cls input c = (Valid r, c') -> get name r = Some v.

(** The default the attribute is declared with passes the attribute's own
    validation (which is not run on defaults). *)
Definition default_valid (f : field) : Prop :=
  match get_default f.2.2 with
  | DefaultValue v => forall c, validate f.2.1 f.2.2 v c = (Valid v, c)
  | DefaultFactory utcnow =>
      forall t c, validate f.2.1 f.2.2 (VDatetime t) c = (Valid (VDatetime t), c)
  | Required => True
  end.

(** The declaration of the attribute [name] among [fs]. *)
Definition find_field (name : string) (fs : list field) : option field :=
  List.find (fun f : field => String.eqb f.1 name) fs.

(** The annotation holds no list and no model: a scalar, a mapping, or an
    Optional of one. *)
Fixpoint flat (t : annotation) : bool :=
  match t with
  | ListOf _ | T_Model _ _ => false
  | Optional t' => flat t'
  | _ => true
  end.

Definition is_factory (kw : list kwarg) : bool :=
  match get_default kw with
  | DefaultFactory _ => true
  | _ => false
  end.

Definition is_given (name : string) (kv : list (string * value)) : bool :=
  match get name kv with
  | Some _ => true
  | None => false
  end.

(** The attribute takes its value from the clock: it has a factory and the
    caller left it out. *)
Definition reads_clock (kv : list (string * value)) (f : field) : bool :=
  is_factory f.2.2 && negb (is_given f.1 kv).

Definition factory_reads (fs : list field) (kv : list (string * value)) : nat :=
  List.length (List.filter (reads_clock kv) fs).

(** The clock [n] readings later. *)
Definition later (n : nat) (c : Clock) : Clock := mkClock (readings c) (ticks c + n).

(** The class of models.py called [name]. *)
Definition find_model (name : string) : option SQLModel :=
  List.find (fun m => String.eqb (cls_name m) name) all_models.

(** The relationship attribute [name] of [cls]. *)
Definition find_relationship (name : string) (cls : SQLModel) : option relationship :=
  List.find (fun r => String.eqb (rel_name r) name) (relationships cls).

(** The columns declared [primary_key=True]. *)
Definition primary_keys (cls : SQLModel) : list string :=
  (List.filter (fun f : field => is_primary_key f.2.2) (model_fields cls)).*1.

(** The columns declared with a foreign key, each with its target. *)
Definition foreign_keys (cls : SQLModel) : list (string * string) :=
  omap (fun f : field => pair f.1 <$> get_foreign_key f.2.2) (model_fields cls).

(** The columns declared [unique=True]. *)
Definition unique_columns (cls : SQLModel) : list string :=
  (List.filter (fun f : field => is_unique f.2.2) (model_fields cls)).*1.

(** The table class whose table is called [tbl]. *)
Definition find_table (tbl : string) : option SQLModel :=
  List.find (fun m => match tablename m with
                      | Some t => String.eqb t tbl
                      | None => false
                      end) metadata.

(** * Properties *)

(** ** Results and their errors *)

Lemma errors_of_cons_result {A} (i : loc_item) (r : Result value) (mk : value -> A)
    (rest : Result (list A)) :
  errors_of (cons_result i r mk rest) = (at_loc i <$> errors_of r) ++ errors_of rest.
Proof. by destruct r, rest. Qed.

Lemma cons_result_Valid {A} (i : loc_item) (r : Result value) (mk : value -> A)
    (rest : Result (list A)) (l : list A) :
  cons_result i r mk rest = Valid l ->
  exists v l', r = Valid v /\ rest = Valid l' /\ l = mk v :: l'.
Proof. destruct r, rest; simpl; intros H; inversion H; eauto. Qed.

Lemma Invalid_of_errors {A} (r : Result A) :
  errors_of r <> [] -> r = Invalid (errors_of r).
Proof. by destruct r. Qed.

Lemma names_field_at_loc (name : string) (e : ErrorDetails) :
  names_field name (at_loc (LField name) e).
Proof. reflexivity. Qed.

Lemma names_field_at_loc_inv (name name' : string) (e : ErrorDetails) :
  names_field name (at_loc (LField name') e) -> name' = name.
Proof. unfold names_field; simpl. congruence. Qed.

(** ** The walk over the fields of a class *)

Lemma validate_fields_cons (f : field) (fs : list field) (kv : list (string * value))
    (c : Clock) :
  validate_fields validate (f :: fs) kv c =
  (cons_result (LField f.1) (validate_field validate f kv c).1 (fun v => (f.1, v))
     (validate_fields validate fs kv (validate_field validate f kv c).2).1,
   (validate_fields validate fs kv (validate_field validate f kv c).2).2).
Proof.
  simpl. destruct (validate_field validate f kv c) as [r c1]; simpl.
  by destruct (validate_fields validate fs kv c1).
Qed.

(** Every error of the class comes from one of its fields and carries the
    field's name in front. *)
Lemma validate_fields_error_origin (fs : list field) (kv : list (string * value))
    (c : Clock) (e : ErrorDetails) :
  e ∈ errors_of (validate_fields validate fs kv c).1 ->
  exists f c1 e', f ∈ fs /\ e' ∈ errors_of (validate_field validate f kv c1).1
                 /\ e = at_loc (LField f.1) e'.
Proof.
  revert c. induction fs as [|f fs IH]; intros c.
  - simpl. by intros ?%elem_of_nil.
  - rewrite validate_fields_cons; simpl. rewrite errors_of_cons_result.
    intros [H|H]%elem_of_app.
    + apply list_elem_of_fmap in H as (e' & -> & He').
      exists f, c, e'. split_and!; [left | done | done].
    + destruct (IH _ H) as (f' & c1 & e' & ? & ? & ?).
      exists f', c1, e'. split_and!; [by right | done | done].
Qed.

(** An error of a field whose outcome does not depend on the clock is an
    error of the class. *)
Lemma validate_fields_error_kept (fs : list field) (kv : list (string * value))
    (f : field) (e : ErrorDetails) :
  f ∈ fs ->
  (forall c, e ∈ errors_of (validate_field validate f kv c).1) ->
  forall c, at_loc (LField f.1) e ∈ errors_of (validate_fields validate fs kv c).1.
Proof.
  intros Hin He. induction fs as [|g fs IH]; intros c.
  - by apply elem_of_nil in Hin.
  - rewrite validate_fields_cons; simpl. rewrite errors_of_cons_result.
    apply elem_of_app. apply elem_of_cons in Hin as [<-|Hin].
    + left. apply list_elem_of_fmap. eauto.
    + right. by apply IH.
Qed.

(** A valid instance holds, under each field's name and in the order of the
    declaration, the valid outcome of that field. *)
Lemma validate_fields_Valid (fs : list field) (kv : list (string * value))
    (c c' : Clock) (r : list (string * value)) :
  validate_fields validate fs kv c = (Valid r, c') ->
  Forall2 (fun f a => a.1 = f.1 /\
             exists c1 c2, validate_field validate f kv c1 = (Valid a.2, c2)) fs r.
Proof.
  revert c r. induction fs as [|f fs IH]; intros c r.
  - simpl. intros [= <- <-]. constructor.
  - rewrite validate_fields_cons.
    destruct (validate_field validate f kv c) as [r1 c1] eqn:E1; simpl.
    destruct (validate_fields validate fs kv c1) as [rs c2] eqn:E2; simpl.
    intros [= H ->]. apply cons_result_Valid in H as (v & l & -> & -> & ->).
    constructor; [split; [done|]; by exists c, c1 | by eapply IH].
Qed.

Lemma get_Forall2 (fs : list field) (r : list (string * value))
    (P : field -> value -> Prop) (f : field) :
  NoDup fs.*1 ->
  Forall2 (fun f a => a.1 = f.1 /\ P f a.2) fs r ->
  f ∈ fs ->
  exists v, get f.1 r = Some v /\ P f v.
Proof.
  intros Hnd H Hin. induction H as [|g [k v] fs r [Hk HP] H IH]; simpl in *.
  - by apply elem_of_nil in Hin.
  - apply NoDup_cons in Hnd as [Hg Hnd]. subst k.
    apply elem_of_cons in Hin as [->|Hin].
    + rewrite String.eqb_refl. eauto.
    + destruct (String.eqb_spec g.1 f.1) as [E|E].
      * exfalso. apply Hg. rewrite E. by apply list_elem_of_fmap_2.
      * by apply IH.
Qed.

(** ** Decimal comparison *)

Lemma Dlt_zero (d : Decimal) : Dlt d D0_0 <-> coefficient d < 0.
Proof.
  unfold Dlt, Dcompare, Dscale; simpl. rewrite Z.compare_lt_iff.
  assert (0 < 10 ^ (exponent d - Z.min (exponent d) (-1))) by (apply Z.pow_pos_nonneg; lia).
  nia.
Qed.

Lemma Dlt_zero_int (n : Z) : Dlt (Dint n) D0_0 <-> n < 0.
Proof. apply Dlt_zero. Qed.

Lemma Dltb_Dleb (a b : Decimal) : Dleb a b = negb (Dltb b a).
Proof.
  unfold Dleb, Dltb, Dcompare. rewrite Z.min_comm.
  rewrite (Z.compare_antisym (Dscale a _) (Dscale b _)).
  by destruct (Dscale a _ ?= Dscale b _).
Qed.

Lemma Dleb_false (a b : Decimal) : Dleb a b = false <-> Dlt b a.
Proof.
  rewrite Dltb_Dleb. unfold Dlt, Dltb. destruct (Dcompare b a); simpl; split; congruence.
Qed.

Lemma Dleb_true (a b : Decimal) : Dleb a b = true <-> ~ Dlt b a.
Proof.
  rewrite <- Dleb_false. destruct (Dleb a b); split; congruence.
Qed.






(** ** One attribute within its class *)

Lemma field_by_name (fs : list field) (f g : field) :
  NoDup fs.*1 -> f ∈ fs -> g ∈ fs -> f.1 = g.1 -> f = g.
Proof.
  intros Hnd Hf Hg E. induction fs as [|h fs IH]; [by apply elem_of_nil in Hf|].
  simpl in Hnd. apply NoDup_cons in Hnd as [Hh Hnd].
  apply elem_of_cons in Hf as [->|Hf]; apply elem_of_cons in Hg as [->|Hg]; auto.
  - exfalso. apply Hh. rewrite E. by apply list_elem_of_fmap_2.
  - exfalso. apply Hh. rewrite <- E. by apply list_elem_of_fmap_2.
Qed.

Lemma validate_field_given (name : string) (t : annotation) (kw : list kwarg)
    (kv : list (string * value)) (v : value) (c : Clock) :
  get name kv = Some v ->
  validate_field validate (Field name t kw) kv c = validate t kw v c.
Proof. intros H. unfold validate_field, Field. by rewrite H. Qed.

(** A value the attribute's declaration refuses makes the class refuse the
    input, with an error that names the attribute. *)
Lemma field_rejected (cls : SQLModel) (input : list (string * value)) (name : string)
    (t : annotation) (kw : list kwarg) (v : value) (e : ErrorDetails) :
  Field name t kw ∈ model_fields cls ->
  get name input = Some v ->
  (forall c, e ∈ errors_of (validate t kw v c).1) ->
  forall c, rejected_for cls input c name.
Proof.
  intros Hin Hget He c. unfold rejected_for.
  assert (at_loc (LField name) e ∈ errors_of (model_validate cls input c).1) as H.
  { apply (validate_fields_error_kept _ _ (Field name t kw)); [done|].
    intros c1. by rewrite (validate_field_given _ _ _ _ v). }
  destruct (model_validate cls input c) as [r c'] eqn:E; simpl in H.
  exists (errors_of r), c'. split.
  - f_equal. apply Invalid_of_errors. intros E'. rewrite E' in H. by apply elem_of_nil in H.
  - apply Exists_exists. exists (at_loc (LField name) e).
    split; [done | apply names_field_at_loc].
Qed.

(** A value the attribute's declaration takes leaves no error under the
    attribute's name, whatever the rest of the input is. *)
Lemma field_accepted (cls : SQLModel) (input : list (string * value)) (name : string)
    (t : annotation) (kw : list kwarg) (v : value) :
  NoDup (field_names cls) ->
  Field name t kw ∈ model_fields cls ->
  get name input = Some v ->
  (forall c, errors_of (validate t kw v c).1 = []) ->
  forall c, accepted_for cls input c name.
Proof.
  intros Hnd Hin Hget Hok c. apply Forall_forall. intros e He Hname.
  apply validate_fields_error_origin in He as (f & c1 & e' & Hf & He' & ->).
  apply names_field_at_loc_inv in Hname.
  assert (f = Field name t kw) as -> by (by apply (field_by_name (model_fields cls))).
  rewrite (validate_field_given _ _ _ _ v), Hok in He' by done.
  by apply elem_of_nil in He'.
Qed.

(** The stored value of an attribute of a valid instance is a valid outcome
    of the attribute's declaration. *)
Lemma field_of_instance (cls : SQLModel) (input r : list (string * value))
    (c c' : Clock) (f : field) :
  NoDup (field_names cls) ->
  f ∈ model_fields cls ->
  model_validate cls input c = (Valid r, c') ->
  exists v c1 c2, get f.1 r = Some v /\ validate_field validate f input c1 = (Valid v, c2).
Proof.
  intros Hnd Hin H. apply validate_fields_Valid in H.
  destruct (get_Forall2 _ _
    (fun f v => exists c1 c2, validate_field validate f input c1 = (Valid v, c2))
    f Hnd H Hin) as (v & Hv & c1 & c2 & Hf).
  by exists v, c1, c2.
Qed.

Ltac field_in :=
  unfold model_fields;
  repeat first [apply list_elem_of_here | apply list_elem_of_further].

Ltac names_distinct := apply (bool_decide_unpack _); by vm_compute.

Lemma validate_confidence_score (v : value) (d : Decimal) (c : Clock) :
  as_decimal v = Some d ->
  validate (Optional T_Decimal) [default VNone; decimal_places 3; ge D0_0; le D1_0] v c
  = (checked (VDecimal d)
       ((if Dleb D0_0 d then [] else [mkError [] greater_than_equal]) ++
        (if Dleb d D1_0 then [] else [mkError [] less_than_equal]) ++
        (if within_decimal_places 3 d then [] else [mkError [] decimal_max_places])), c).
Proof.
  intros H. assert (v <> VNone) by (by intros ->).
  transitivity (validate_Decimal [default VNone; decimal_places 3; ge D0_0; le D1_0] v, c).
  { by destruct v. }
  unfold validate_Decimal. rewrite H. unfold check_decimal_places; simpl.
  by rewrite app_nil_r, <- app_assoc.
Qed.



(** The boundary values of the confidence score, in whole instances. *)
Example confidence_score_one_taken :
  (model_validate MedicationCreate
     [("name", VStr "Amoxicillin"); ("order_index", VInt 0);
      ("confidence_score", VDecimal D1_0)] epoch_clock).1
  = Valid
      [("name", VStr "Amoxicillin"); ("generic_name", VNone); ("brand_name", VNone);
       ("medication_type", VNone); ("strength", VNone); ("dosage_form", VNone);
       ("dosage_instructions", VNone); ("frequency", VNone); ("duration", VNone);
       ("quantity", VNone); ("before_after_meal", VNone);
       ("special_instructions", VNone); ("order_index", VInt 0);
       ("confidence_score", VDecimal D1_0)].
Proof. reflexivity. Qed.

Example confidence_score_zero_taken :
  exists r, (model_validate AnalysisSession
     [("user_id", VInt 1); ("image_id", VInt 1); ("confidence_score", VDecimal D0_0)]
     epoch_clock).1 = Valid r /\ get "confidence_score" r = Some (VDecimal D0_0).
Proof. eexists. split; reflexivity. Qed.

(** ** Integer bounds *)

Lemma Dcompare_int (a b : Z) : Dcompare (Dint a) (Dint b) = (a ?= b).
Proof. unfold Dcompare, Dscale; simpl. by rewrite !Z.mul_1_r. Qed.

Lemma Dleb_int (a b : Z) : Dleb (Dint a) (Dint b) = (a <=? b).
Proof. unfold Dleb. rewrite Dcompare_int. unfold Z.leb. by destruct (a ?= b). Qed.





Example file_size_one_taken :
  (model_validate PrescriptionImageUpload
     [("filename", VStr "rx.png"); ("file_size", VInt 1); ("mime_type", VStr "image/png")]
     epoch_clock).1
  = Valid [("filename", VStr "rx.png"); ("file_size", VInt 1);
           ("mime_type", VStr "image/png"); ("width", VNone); ("height", VNone)].
Proof. reflexivity. Qed.

Example file_size_zero_refused :
  (model_validate PrescriptionImageUpload
     [("filename", VStr "rx.png"); ("file_size", VInt 0); ("mime_type", VStr "image/png")]
     epoch_clock).1
  = Invalid [mkError [LField "file_size"] greater_than].
Proof. reflexivity. Qed.




Example patient_age_151_refused :
  (model_validate Prescription
     [("patient_age", VInt 151); ("image_id", VInt 1); ("analysis_session_id", VInt 1)]
     epoch_clock).1
  = Invalid [mkError [LField "patient_age"] less_than_equal].
Proof. reflexivity. Qed.

(** ** Enumerations *)

Lemma AnalysisStatus_of_value_spec (s : string) (m : AnalysisStatus) :
  AnalysisStatus_.of_value s = Some m <-> AnalysisStatus_.value m = s.
Proof.
  split.
  - intros [_ H]%List.find_some. by apply String.eqb_eq.
  - intros <-. by destruct m.
Qed.

Lemma MedicationType_of_value_spec (s : string) (m : MedicationType) :
  MedicationType_.of_value s = Some m <-> MedicationType_.value m = s.
Proof.
  split.
  - intros [_ H]%List.find_some. by apply String.eqb_eq.
  - intros <-. by destruct m.
Qed.

Lemma AnalysisStatus_of_value_None (s : string) :
  AnalysisStatus_.of_value s = None
  <-> s ∉ AnalysisStatus_.value <$> AnalysisStatus_.members.
Proof.
  split.
  - intros H (m & -> & _)%list_elem_of_fmap.
    by rewrite (proj2 (AnalysisStatus_of_value_spec _ m)) in H.
  - intros H. destruct (AnalysisStatus_.of_value s) as [m|] eqn:E; [|done].
    apply AnalysisStatus_of_value_spec in E as <-. exfalso. apply H.
    apply list_elem_of_fmap_2. destruct m; field_in.
Qed.

Lemma MedicationType_of_value_None (s : string) :
  MedicationType_.of_value s = None
  <-> s ∉ MedicationType_.value <$> MedicationType_.members.
Proof.
  split.
  - intros H (m & -> & _)%list_elem_of_fmap.
    by rewrite (proj2 (MedicationType_of_value_spec _ m)) in H.
  - intros H. destruct (MedicationType_.of_value s) as [m|] eqn:E; [|done].
    apply MedicationType_of_value_spec in E as <-. exfalso. apply H.
    apply list_elem_of_fmap_2. destruct m; field_in.
Qed.

(** A string that is no value of the enum is refused by the annotation. *)
Lemma validate_enum_unknown (t : annotation) (kw : list kwarg) (vals : list string)
    (s : string) (c : Clock) :
  enum_values t = Some vals -> s ∉ vals ->
  validate t kw (VStr s) c = (Invalid [mkError [] enum_type], c).
Proof.
  revert vals. induction t; intros vals; try done; simpl.
  - intros [= <-] H%AnalysisStatus_of_value_None.
    unfold validate_AnalysisStatus. by rewrite H.
  - intros [= <-] H%MedicationType_of_value_None.
    unfold validate_MedicationType. by rewrite H.
  - intros. by eapply IHt.
Qed.

(** C6. The string values of AnalysisStatus are exactly pending, processing,
    completed, failed, those of MedicationType exactly tablet, capsule, syrup,
    injection, drops, cream, ointment, other; a string is read as a member
    only when it is that member's value; and in any class an enum-typed
    attribute given a string outside its enum's values makes validation fail
    with an error naming the attribute. *)
Theorem enum_wire_values :
  AnalysisStatus_.value <$> AnalysisStatus_.members
    = ["pending"; "processing"; "completed"; "failed"]
  /\ MedicationType_.value <$> MedicationType_.members
    = ["tablet"; "capsule"; "syrup"; "injection"; "drops"; "cream"; "ointment"; "other"]
  /\ (forall m : AnalysisStatus, m ∈ AnalysisStatus_.members)
  /\ (forall m : MedicationType, m ∈ MedicationType_.members)
  /\ (forall s m, AnalysisStatus_.of_value s = Some m <-> AnalysisStatus_.value m = s)
  /\ (forall s m, MedicationType_.of_value s = Some m <-> MedicationType_.value m = s)
  /\ (forall (cls : SQLModel) name t kw vals s input c,
        Field name t kw ∈ model_fields cls ->
        enum_values t = Some vals ->
        get name input = Some (VStr s) ->
        s ∉ vals ->
        rejected_for cls input c name).
Proof.
  split_and!; try done.
  - intros m. destruct m; field_in.
  - intros m. destruct m; field_in.
  - apply AnalysisStatus_of_value_spec.
  - apply MedicationType_of_value_spec.
  - intros cls name t kw vals s input c Hin Hvals Hget Hs.
    eapply (field_rejected _ _ _ _ _ _ (mkError [] enum_type)); [done..|].
    intros c1. rewrite (validate_enum_unknown t kw vals) by done. left.
Qed.

Lemma enum_wire_values_witness :
  AnalysisStatus_.of_value "done" = None
  /\ rejected_for AnalysisSession
       [("status", VStr "done"); ("user_id", VInt 1); ("image_id", VInt 1)]
       epoch_clock "status"
  /\ rejected_for MedicationCreate
       [("name", VStr "Amoxicillin"); ("medication_type", VStr "Tablet")]
       epoch_clock "medication_type".
Proof.
  split; [reflexivity|]. split.
  - apply (proj2 (proj2 (proj2 (proj2 (proj2 (proj2 enum_wire_values)))))
             AnalysisSession "status" T_AnalysisStatus
             [default (VAnalysisStatus PENDING)]
             (AnalysisStatus_.value <$> AnalysisStatus_.members) "done").
    + field_in.
    + reflexivity.
    + reflexivity.
    + apply (bool_decide_unpack _). vm_compute. exact I.
  - apply (proj2 (proj2 (proj2 (proj2 (proj2 (proj2 enum_wire_values)))))
             MedicationCreate "medication_type" (Optional T_MedicationType)
             [default VNone]
             (MedicationType_.value <$> MedicationType_.members) "Tablet").
    + field_in.
    + reflexivity.
    + reflexivity.
    + apply (bool_decide_unpack _). vm_compute. exact I.
Defined.

(** ** Request shapes *)

(** C8. UserCreate has exactly the fields name and email, and
    AnalysisSessionCreate exactly image_id, model_name and model_version.
    Every attribute of a request shape is an attribute of its table class, and
    none is server-assigned (id, created_at, updated_at, started_at,
    upload_timestamp).  All of them are columns of the table class but one:
    medications of PrescriptionCreate is the relationship of that name. *)
Theorem create_shapes_fields :
  field_names UserCreate = ["name"; "email"]
  /\ field_names AnalysisSessionCreate = ["image_id"; "model_name"; "model_version"]
  /\ Forall (fun p => field_names p.1 ⊆ attribute_names p.2) create_shapes
  /\ Forall (fun p => Forall (fun n => n ∉ server_assigned) (field_names p.1))
       create_shapes
  /\ (fun p => (cls_name p.1, not_columns p.1 p.2)) <$> create_shapes
     = [ ("UserCreate", []); ("PrescriptionImageUpload", []);
         ("AnalysisSessionCreate", []); ("MedicationCreate", []);
         ("PrescriptionCreate", ["medications"]) ]
  /\ "medications" ∈ relationship_names Prescription.
Proof.
  split_and!; try reflexivity.
  - apply (bool_decide_unpack _). by vm_compute.
  - apply (bool_decide_unpack _). by vm_compute.
  - field_in.
Qed.

(** ** Defaults *)

Lemma validate_field_default (name : string) (t : annotation) (kw : list kwarg)
    (kv : list (string * value)) (v : value) (c : Clock) :
  get name kv = None -> get_default kw = DefaultValue v ->
  validate_field validate (Field name t kw) kv c = (Valid v, c).
Proof. intros H1 H2. unfold validate_field, Field. by rewrite H1, H2. Qed.

Lemma validate_field_utcnow (name : string) (t : annotation) (kw : list kwarg)
    (kv : list (string * value)) (c : Clock) :
  get name kv = None -> get_default kw = DefaultFactory utcnow ->
  validate_field validate (Field name t kw) kv c
  = (Valid (VDatetime (now c)), mkClock (readings c) (S (ticks c))).
Proof. intros H1 H2. unfold validate_field, Field. by rewrite H1, H2. Qed.

(** An attribute the caller leaves out holds, in a valid instance, the
    default value of its declaration. *)
Lemma default_of_instance (cls : SQLModel) (input r : list (string * value))
    (c c' : Clock) (name : string) (t : annotation) (kw : list kwarg) (v : value) :
  NoDup (field_names cls) ->
  Field name t kw ∈ model_fields cls ->
  get name input = None ->
  get_default kw = DefaultValue v ->
  model_validate cls input c = (Valid r, c') ->
  get name r = Some v.
Proof.
  intros Hnd Hin Hget Hdef H.
  destruct (field_of_instance _ _ _ _ _ _ Hnd Hin H) as (v' & c1 & c2 & Hv & Hf).
  rewrite (validate_field_default _ _ _ _ v) in Hf by done. by injection Hf as -> _.
Qed.

(** C10. raw_response of AnalysisSession defaults to the empty mapping and
    medications of PrescriptionCreate to the empty list, not to None: left
    out by the caller, the attribute validates to that value whatever the
    rest of the input is, every valid instance holds it, and the inputs that
    give only the required attributes are valid. *)
Theorem empty_container_defaults :
  (forall input c,
     get "raw_response" input = None ->
     validate_field validate
       (Field "raw_response" (Optional Dict_str_Any) [default (VDict []); sa_column JSON])
       input c = (Valid (VDict []), c))
  /\ (forall input c r c',
     get "raw_response" input = None ->
     model_validate AnalysisSession input c = (Valid r, c') ->
     get "raw_response" r = Some (VDict []))
  /\ (forall user_id image_id c, exists r c',
     model_validate AnalysisSession
       [("user_id", VInt user_id); ("image_id", VInt image_id)] c = (Valid r, c')
     /\ get "raw_response" r = Some (VDict []))
  /\ (forall input c,
     get "medications" input = None ->
     validate_field validate
       (Field "medications" (ListOf (as_annotation MedicationCreate)) [default (VList [])])
       input c = (Valid (VList []), c))
  /\ (forall input c r c',
     get "medications" input = None ->
     model_validate PrescriptionCreate input c = (Valid r, c') ->
     get "medications" r = Some (VList []))
  /\ (forall image_id analysis_session_id c, exists r c',
     model_validate PrescriptionCreate
       [("image_id", VInt image_id); ("analysis_session_id", VInt analysis_session_id)] c
       = (Valid r, c')
     /\ get "medications" r = Some (VList []))
  /\ VDict [] <> VNone /\ VList [] <> VNone.
Proof.
  split_and!; try done.
  - intros input c H. by apply validate_field_default.
  - intros input c r c' Hget H.
    eapply (default_of_instance AnalysisSession); [names_distinct | field_in | done..].
  - intros u i c. eexists _, _. split; reflexivity.
  - intros input c H. by apply validate_field_default.
  - intros input c r c' Hget H.
    eapply (default_of_instance PrescriptionCreate); [names_distinct | field_in | done..].
  - intros i a c. eexists _, _. split; reflexivity.
Qed.

Lemma empty_container_defaults_witness :
  get "raw_response"
    (model_validate_instance AnalysisSession
       [("user_id", VInt 1); ("image_id", VInt 1)] epoch_clock) = Some (VDict [])
  /\ get "medications"
    (model_validate_instance PrescriptionCreate
       [("image_id", VInt 1); ("analysis_session_id", VInt 1)] epoch_clock)
     = Some (VList []).
Proof.
  split.
  - apply (proj1 (proj2 empty_container_defaults)
             [("user_id", VInt 1); ("image_id", VInt 1)] epoch_clock _
             (model_validate AnalysisSession
                [("user_id", VInt 1); ("image_id", VInt 1)] epoch_clock).2);
      reflexivity.
  - apply (proj1 (proj2 (proj2 (proj2 (proj2 empty_container_defaults))))
             [("image_id", VInt 1); ("analysis_session_id", VInt 1)] epoch_clock _
             (model_validate PrescriptionCreate
                [("image_id", VInt 1); ("analysis_session_id", VInt 1)] epoch_clock).2);
      reflexivity.
Defined.

(** C4. A User built from a name and an email alone is active and carries,
    as created_at and as updated_at, the time the clock reads when the
    default of each is taken during the construction: two consecutive
    readings, and the only ones.  An AnalysisSession built without a status
    and without a completed_at is pending, with completed_at None. *)
Theorem construction_defaults :
  (forall input name email c,
     get "name" input = Some (VStr name) ->
     get "email" input = Some (VStr email) ->
     get "id" input = None -> get "is_active" input = None ->
     get "created_at" input = None -> get "updated_at" input = None ->
     (String.length name <= 100)%nat -> (String.length email <= 255)%nat ->
     model_validate User input c
     = (Valid [("id", VNone); ("name", VStr name); ("email", VStr email);
               ("is_active", VBool true);
               ("created_at", VDatetime (readings c (ticks c)));
               ("updated_at", VDatetime (readings c (S (ticks c))))],
        mkClock (readings c) (S (S (ticks c)))))
  /\ (forall input c,
     get "status" input = None ->
     validate_field validate
       (Field "status" T_AnalysisStatus [default (VAnalysisStatus PENDING)]) input c
     = (Valid (VAnalysisStatus PENDING), c))
  /\ (forall input c,
     get "completed_at" input = None ->
     validate_field validate
       (Field "completed_at" (Optional T_datetime) [default VNone]) input c
     = (Valid VNone, c))
  /\ (forall input c r c',
     get "status" input = None -> get "completed_at" input = None ->
     model_validate AnalysisSession input c = (Valid r, c') ->
     get "status" r = Some (VAnalysisStatus PENDING)
     /\ get "completed_at" r = Some VNone)
  /\ (forall user_id image_id c, exists r c',
     model_validate AnalysisSession
       [("image_id", VInt image_id); ("model_name", VStr "gemini-flash");
        ("user_id", VInt user_id)] c = (Valid r, c')
     /\ get "status" r = Some (VAnalysisStatus PENDING)
     /\ get "completed_at" r = Some VNone).
Proof.
  split_and!.
  - intros input name email c Hname Hemail Hid Hact Hcr Hup Hln Hle.
    unfold model_validate.
    cbn [User model_fields validate_fields validate_field Field fst snd].
    rewrite Hname, Hemail, Hid, Hact, Hcr, Hup. simpl.
    unfold validate_str, check_max_length; simpl.
    apply Nat.leb_le in Hln, Hle. by rewrite Hln, Hle.
  - intros input c H. by apply validate_field_default.
  - intros input c H. by apply validate_field_default.
  - intros input c r c' Hs Hc H. split.
    + eapply (default_of_instance AnalysisSession); [names_distinct | field_in | done..].
    + eapply (default_of_instance AnalysisSession); [names_distinct | field_in | done..].
  - intros u i c. eexists _, _. split_and!; reflexivity.
Qed.

Lemma construction_defaults_witness :
  model_validate User
    [("name", VStr "Jane Doe"); ("email", VStr "jane@example.com")] epoch_clock
  = (Valid [("id", VNone); ("name", VStr "Jane Doe");
            ("email", VStr "jane@example.com"); ("is_active", VBool true);
            ("created_at", VDatetime 0); ("updated_at", VDatetime 1)],
     mkClock Z.of_nat 2).
Proof.
  apply (proj1 construction_defaults
           [("name", VStr "Jane Doe"); ("email", VStr "jane@example.com")]
           "Jane Doe" "jane@example.com" epoch_clock);
    try reflexivity; vm_compute; lia.
Defined.

(** The two timestamps are two readings: a clock that moves between them
    gives different values. *)
Remark User_timestamps_are_two_readings :
  get "created_at" (model_validate_instance User
    [("name", VStr "Jane Doe"); ("email", VStr "jane@example.com")] epoch_clock)
  <> get "updated_at" (model_validate_instance User
    [("name", VStr "Jane Doe"); ("email", VStr "jane@example.com")] epoch_clock).
Proof. vm_compute. congruence. Qed.

(** ** Rows and tables *)

Lemma get_set_attr (name n : string) (v : value) (r : Row) :
  get name (set_attr n v r) = if String.eqb n name then Some v else get name r.
Proof.
  induction r as [|[k x] r IH]; simpl.
  - destruct (String.eqb_spec n name); done.
  - destruct (String.eqb_spec k n) as [->|Hkn]; simpl.
    + destruct (String.eqb_spec n name); done.
    + rewrite IH. destruct (String.eqb_spec k name) as [->|]; [|done].
      by destruct (String.eqb_spec n name).
Qed.

Lemma column_set_attr_eq (n : string) (v : value) (r : Row) :
  column n (set_attr n v r) = v.
Proof. unfold column. by rewrite get_set_attr, String.eqb_refl. Qed.

Lemma column_set_attr_ne (name n : string) (v : value) (r : Row) :
  n <> name -> column name (set_attr n v r) = column name r.
Proof.
  intros H. unfold column. rewrite get_set_attr.
  by destruct (String.eqb_spec n name).
Qed.

Lemma column_eqb_eq (a b : value) : column_eqb a b = true -> a = b.
Proof.
  destruct a, b; simpl; try done.
  - by intros ->%Z.eqb_eq.
  - by intros ->%String.eqb_eq.
Qed.

Lemma column_eqb_int (k : Z) : column_eqb (VInt k) (VInt k) = true.
Proof. apply Z.eqb_refl. Qed.

Lemma column_eqb_str (e : string) : column_eqb (VStr e) (VStr e) = true.
Proof. apply String.eqb_refl. Qed.

Lemma rows_insert (s : Store) (tbl t : string) (l : list Row) :
  rows (<[tbl := l]> s) t = if decide (tbl = t) then l else rows s t.
Proof. unfold rows. rewrite lookup_insert. by case_decide. Qed.

Lemma rows_empty (t : string) : rows ∅ t = [].
Proof. unfold rows. by rewrite lookup_empty. Qed.

(** ** Facts of the declared schema *)

Ltac each_class H :=
  repeat (apply elem_of_cons in H as [->|H]); [..|by apply elem_of_nil in H].

Ltac each_field H :=
  unfold model_fields in H; simpl in H;
  repeat (apply elem_of_cons in H as [H|H]); [..|by apply elem_of_nil in H];
  injection H as -> -> ->.

Lemma metadata_names_distinct (cls : SQLModel) :
  cls ∈ metadata -> NoDup (field_names cls).
Proof. intros H. each_class H; names_distinct. Qed.

Lemma metadata_tablename (cls1 cls2 : SQLModel) (tbl : string) :
  cls1 ∈ metadata -> cls2 ∈ metadata ->
  tablename cls1 = Some tbl -> tablename cls2 = Some tbl -> cls1 = cls2.
Proof. intros H1 H2. each_class H1; each_class H2; simpl; congruence. Qed.

Lemma metadata_id (cls : SQLModel) :
  cls ∈ metadata ->
  Field "id" (Optional T_int) [default VNone; primary_key true] ∈ model_fields cls.
Proof. intros H. each_class H; field_in. Qed.

Lemma metadata_foreign_keys (cls : SQLModel) (name : string) (t : annotation)
    (kw : list kwarg) (target : string) :
  cls ∈ metadata -> Field name t kw ∈ model_fields cls ->
  get_foreign_key kw = Some target ->
  t = T_int /\ get_default kw = Required /\ (split_dot target).2 = "id".
Proof.
  intros H Hf. each_class H; each_field Hf; simpl; try done;
    by intros [= <-].
Qed.

Lemma metadata_unique (cls : SQLModel) (name : string) (t : annotation)
    (kw : list kwarg) :
  cls ∈ metadata -> Field name t kw ∈ model_fields cls -> is_unique kw = true ->
  t = T_str /\ get_default kw = Required.
Proof. intros H Hf. each_class H; each_field Hf; simpl; done. Qed.

(** ** Valid instances as rows *)

Lemma valid_required_int (name : string) (kw : list kwarg)
    (input : list (string * value)) (v : value) (c1 c2 : Clock) :
  validate_field validate (Field name T_int kw) input c1 = (Valid v, c2) ->
  get_default kw = Required ->
  exists k, v = VInt k /\ get name input = Some (VInt k).
Proof.
  unfold validate_field, Field. intros H Hreq. rewrite Hreq in H.
  destruct (get name input) as [x|]; [|done].
  simpl in H. destruct x; try done. simpl in H.
  unfold validate_int, checked in H. destruct (check_bounds kw (Dint n)); [|done].
  injection H as <- _. eauto.
Qed.

Lemma valid_required_str (name : string) (kw : list kwarg)
    (input : list (string * value)) (v : value) (c1 c2 : Clock) :
  validate_field validate (Field name T_str kw) input c1 = (Valid v, c2) ->
  get_default kw = Required ->
  exists e, v = VStr e /\ get name input = Some (VStr e).
Proof.
  unfold validate_field, Field. intros H Hreq. rewrite Hreq in H.
  destruct (get name input) as [x|]; [|done].
  simpl in H. destruct x; try done. simpl in H.
  unfold validate_str, checked in H. destruct (check_max_length kw s); [|done].
  injection H as <- _. eauto.
Qed.

(** A required int or str column of a valid instance holds the caller's value. *)
Lemma instance_required (cls : SQLModel) (input r : list (string * value))
    (c c' : Clock) (name : string) (t : annotation) (kw : list kwarg) :
  NoDup (field_names cls) ->
  model_validate cls input c = (Valid r, c') ->
  Field name t kw ∈ model_fields cls -> get_default kw = Required ->
  (t = T_int -> exists k, column name r = VInt k /\ get name input = Some (VInt k))
  /\ (t = T_str -> exists e, column name r = VStr e /\ get name input = Some (VStr e)).
Proof.
  intros Hnd H Hf Hreq.
  destruct (field_of_instance _ _ _ _ _ _ Hnd Hf H) as (v & c1 & c2 & Hv & Hfv).
  simpl in Hv. unfold column. rewrite Hv. simpl. split; intros ->.
  - by eapply valid_required_int.
  - by eapply valid_required_str.
Qed.

Lemma name_of_required (cls : SQLModel) (name : string) (t : annotation)
    (kw : list kwarg) :
  cls ∈ metadata -> Field name t kw ∈ model_fields cls -> get_default kw = Required ->
  "id" <> name.
Proof.
  intros Hcls Hf Hreq <-.
  assert (Field "id" t kw = Field "id" (Optional T_int) [default VNone; primary_key true])
    as [= -> ->].
  { apply (field_by_name (model_fields cls));
      [by apply metadata_names_distinct | done | by apply metadata_id | done]. }
  done.
Qed.

Lemma created_row_typed (cls : SQLModel) (input r : list (string * value))
    (c c' : Clock) (v : value) :
  cls ∈ metadata ->
  model_validate cls input c = (Valid r, c') ->
  required_typed cls (set_attr "id" v r).
Proof.
  intros Hcls H name t kw Hf Hreq.
  rewrite column_set_attr_ne by (by eapply name_of_required).
  destruct (instance_required cls input r c c' name t kw) as [Hi Hs];
    [by apply metadata_names_distinct | done..|].
  split; intros E; [destruct (Hi E) as (k & ? & _) | destruct (Hs E) as (e & ? & _)];
    eauto.
Qed.

(** ** The checks of a write *)

Lemma write_Written (cls : SQLModel) (tbl : string) (others commit : list Row)
    (r r' : Row) (s s' : Store) :
  write cls tbl others r commit s = (Written r', s') ->
  r' = r /\ s' = <[tbl := commit]> s
  /\ duplicates others (model_fields cls) r = []
  /\ dangling s (model_fields cls) r = None.
Proof.
  unfold write. destruct (duplicates _ _ _); [|done].
  destruct (dangling _ _ _) as [[??]|]; [done|]. by intros [= <- <-].
Qed.

Lemma write_Failed (cls : SQLModel) (tbl : string) (others commit : list Row)
    (r : Row) (s s' : Store) (e : Error) :
  write cls tbl others r commit s = (Failed e, s') -> s' = s.
Proof.
  unfold write. destruct (duplicates _ _ _); [|by intros [= _ <-]].
  destruct (dangling _ _ _) as [[??]|]; [by intros [= _ <-]|done].
Qed.

(** A failed operation writes nothing. *)
Lemma exec_Failed (op : Op) (st st' : State) (e : Error) :
  exec op st = (Failed e, st') -> st'.1 = st.1.
Proof.
  destruct st as [s c], op as [cls input|cls i changes]; simpl.
  - destruct (tablename cls) as [tbl|]; [|by intros [= _ <-]].
    destruct (model_validate cls input c) as [[r|es] c1]; [|by intros [= _ <-]].
    destruct (write _ _ _ _ _ _) as [o s1] eqn:E. intros [= -> <-]. simpl.
    by eapply write_Failed.
  - destruct (tablename cls) as [tbl|]; [|by intros [= _ <-]].
    destruct (get_by_id s tbl i) as [old|]; [|by intros [= _ <-]].
    destruct (model_validate cls _ c) as [[r|es] c1]; [|by intros [= _ <-]].
    destruct (write _ _ _ _ _ _) as [o s1] eqn:E. intros [= -> <-]. simpl.
    by eapply write_Failed.
Qed.

Lemma duplicates_nil (others : list Row) (fs : list field) (r : Row) (name : string)
    (t : annotation) (kw : list kwarg) :
  duplicates others fs r = [] -> Field name t kw ∈ fs -> is_unique kw = true ->
  existsb (fun o => column_eqb (column name o) (column name r)) others = false.
Proof.
  induction fs as [|[n [t' kw']] fs IH]; simpl; [by intros _ ?%elem_of_nil|].
  intros [H1 H2]%app_eq_nil [[= -> -> ->]|Hin]%elem_of_cons Hu.
  - rewrite Hu in H1. simpl in H1. by destruct (existsb _ _).
  - by apply IH.
Qed.

Lemma dangling_None (s : Store) (fs : list field) (r : Row) :
  dangling s fs r = None <->
  forall name t kw target,
    Field name t kw ∈ fs -> get_foreign_key kw = Some target ->
    column name r = VNone \/ parent_exists s target (column name r) = true.
Proof.
  induction fs as [|[n [t' kw']] fs IH]; simpl.
  - split; [by intros _ ???? ?%elem_of_nil | done].
  - split.
    + intros H name t kw target [[= -> -> ->]|Hin]%elem_of_cons Hfk.
      * rewrite Hfk in H. destruct (column n r) eqn:E; auto;
          right; by destruct (parent_exists s target _).
      * assert (dangling s fs r = None) as H'.
        { destruct (get_foreign_key kw'); [|done].
          destruct (column n r); try done;
            by destruct (parent_exists s _ _). }
        by eapply (proj1 IH H').
    + intros H.
      assert (dangling s fs r = None) as H'.
      { apply IH. intros name t kw target Hin. apply (H name t kw target). by right. }
      destruct (get_foreign_key kw') as [target|] eqn:Hfk; [|done].
      destruct (H n t' kw' target) as [E|E]; [by left | done | by rewrite E |].
      revert E. destruct (column n r); intros E; try done; by rewrite E.
Qed.

Lemma existsb_false_elem {A} (f : A -> bool) (l : list A) (x : A) :
  existsb f l = false -> x ∈ l -> f x = false.
Proof.
  induction l as [|y l IH]; simpl; [by intros _ ?%elem_of_nil|].
  intros [H1 H2]%orb_false_elim [->|Hin]%elem_of_cons; auto.
Qed.

Lemma existsb_true_elem {A} (f : A -> bool) (l : list A) :
  existsb f l = true <-> exists x, x ∈ l /\ f x = true.
Proof.
  rewrite existsb_exists. split; intros (x & H1 & H2); exists x;
    (split; [by apply list_elem_of_In | done]).
Qed.

Lemma parent_exists_spec (s : Store) (target : string) (v : value) :
  parent_exists s target v = true <->
  exists p, p ∈ rows s (split_dot target).1
            /\ column_eqb (column (split_dot target).2 p) v = true.
Proof. unfold parent_exists. destruct (split_dot target). apply existsb_true_elem. Qed.

(** ** What a write keeps *)

Lemma parent_exists_kept (s s' : Store) (target : string) (v : value) :
  (split_dot target).2 = "id" -> keeps_keys s s' ->
  parent_exists s target v = true -> parent_exists s' target v = true.
Proof.
  intros Hid Hk (p & Hp & E)%parent_exists_spec. apply parent_exists_spec.
  destruct (Hk _ _ Hp) as (p' & Hp' & E'). exists p'. split; [done|].
  by rewrite Hid, E', <- Hid.
Qed.

Lemma dangling_kept (s s' : Store) (cls : SQLModel) (r : Row) :
  cls ∈ metadata -> keeps_keys s s' ->
  dangling s (model_fields cls) r = None -> dangling s' (model_fields cls) r = None.
Proof.
  intros Hcls Hk H. apply dangling_None. intros name t kw target Hf Hfk.
  destruct (proj1 (dangling_None _ _ _) H name t kw target Hf Hfk) as [E|E]; [by left|].
  right. eapply parent_exists_kept; [|done..].
  by destruct (metadata_foreign_keys cls name t kw target) as (_ & _ & ?).
Qed.

Lemma keeps_keys_append (s : Store) (tbl : string) (r : Row) :
  keeps_keys s (<[tbl := rows s tbl ++ [r]]> s).
Proof.
  intros t p Hp. exists p. split; [|done]. rewrite rows_insert.
  case_decide as E; [subst t; apply elem_of_app; by left | done].
Qed.

Lemma keeps_keys_replace (s : Store) (tbl : string) (i : Z) (r : Row) :
  column "id" r = VInt i ->
  keeps_keys s (<[tbl := (fun o => if has_id i o then r else o) <$> rows s tbl]> s).
Proof.
  intros Hr t p Hp. rewrite rows_insert. case_decide as E; [subst t|by exists p].
  exists (if has_id i p then r else p).
  split; [by apply (list_elem_of_fmap_2 (fun o => if has_id i o then r else o))|].
  destruct (has_id i p) eqn:Hi; [|done].
  apply column_eqb_eq in Hi. by rewrite Hi.
Qed.

(** The value a unique column holds in a stored row differs from the value
    of a row that passed the duplicate check against it. *)
Lemma unique_against (s : Store) (cls : SQLModel) (tbl : string) (others : list Row)
    (r o : Row) (name : string) (t : annotation) (kw : list kwarg) :
  store_inv s -> cls ∈ metadata -> tablename cls = Some tbl ->
  Field name t kw ∈ model_fields cls -> is_unique kw = true ->
  duplicates others (model_fields cls) r = [] ->
  o ∈ others -> o ∈ rows s tbl ->
  column name o <> column name r.
Proof.
  intros Hinv Hcls Htbl Hf Hu Hdup Ho Hrow E.
  destruct (metadata_unique cls name t kw) as [-> Hreq]; [done..|].
  destruct (inv_typed s Hinv cls tbl o Hcls Htbl Hrow name T_str kw Hf Hreq)
    as [_ [e He]]; [done|].
  pose proof (existsb_false_elem _ _ o
                (duplicates_nil _ _ _ _ _ _ Hdup Hf Hu) Ho) as H.
  simpl in H. by rewrite <- E, He, column_eqb_str in H.
Qed.

Lemma create_inv (cls : SQLModel) (input : list (string * value)) (s s' : Store)
    (c c' : Clock) (o : Outcome) :
  cls ∈ metadata -> store_inv s ->
  create cls input (s, c) = (o, (s', c')) -> store_inv s'.
Proof.
  intros Hcls Hinv. unfold create.
  destruct (tablename cls) as [tbl|] eqn:Htbl; [|by intros [= _ <- _]].
  destruct (model_validate cls input c) as [[r|es] c1] eqn:Hv; [|by intros [= _ <- _]].
  set (r' := set_attr "id" (VInt (next_id (rows s tbl))) r).
  destruct (write _ _ _ _ _ _) as [[w|e] s1] eqn:Hw; intros [= <- <- <-];
    [|by rewrite (write_Failed _ _ _ _ _ _ _ _ Hw)].
  apply write_Written in Hw as (_ & -> & Hdup & Hfk).
  pose proof (keeps_keys_append s tbl r') as Hkeep.
  assert (required_typed cls r') as Htyped by (by eapply created_row_typed).
  split.
  - intros cls2 tbl2 i r2 Hcls2 Htbl2. rewrite rows_insert.
    case_decide as E; [subst tbl2|by apply (inv_ids s Hinv cls2)].
    intros [H|[Hlen H]]%lookup_app_Some; [by apply (inv_ids s Hinv cls2 tbl)|].
    apply list_lookup_singleton_Some in H as [Hi <-].
    unfold r'. rewrite column_set_attr_eq. unfold next_id. do 2 f_equal. lia.
  - intros cls2 tbl2 r2 Hcls2 Htbl2. rewrite rows_insert.
    case_decide as E; [subst tbl2|by apply (inv_typed s Hinv cls2)].
    assert (cls2 = cls) as -> by (by eapply metadata_tablename).
    intros [H|H%list_elem_of_singleton]%elem_of_app;
      [by apply (inv_typed s Hinv _ tbl) | by subst r2].
  - intros cls2 tbl2 name t kw Hcls2 Htbl2 Hf Hu. rewrite rows_insert.
    case_decide as E; [subst tbl2|by apply (inv_unique s Hinv cls2 _ _ t kw)].
    assert (cls2 = cls) as -> by (by eapply metadata_tablename).
    assert (forall x, x ∈ rows s tbl -> column name x <> column name r') as Hnew.
    { intros x Hx. by eapply (unique_against s cls tbl (rows s tbl)). }
    intros i j r1 r2 [H1|[Hl1 H1]]%lookup_app_Some [H2|[Hl2 H2]]%lookup_app_Some Hcol.
    + by eapply (inv_unique s Hinv cls tbl name t kw).
    + apply list_lookup_singleton_Some in H2 as [_ <-].
      exfalso. eapply Hnew; [|done]. by eapply list_elem_of_lookup_2.
    + apply list_lookup_singleton_Some in H1 as [_ <-].
      exfalso. eapply Hnew; [|done]. by eapply list_elem_of_lookup_2.
    + apply list_lookup_singleton_Some in H1 as [H1 _].
      apply list_lookup_singleton_Some in H2 as [H2 _]. lia.
  - intros cls2 tbl2 r2 Hcls2 Htbl2 Hr2.
    apply (dangling_kept s); [done..|]. revert Hr2. rewrite rows_insert.
    case_decide as E; [subst tbl2|by apply (inv_fk s Hinv cls2)].
    assert (cls2 = cls) as -> by (by eapply metadata_tablename).
    intros [H|H%list_elem_of_singleton]%elem_of_app;
      [by apply (inv_fk s Hinv _ tbl) | by subst r2].
Qed.

Lemma update_inv (cls : SQLModel) (i : Z) (changes : list (string * value))
    (s s' : Store) (c c' : Clock) (o : Outcome) :
  cls ∈ metadata -> store_inv s ->
  update cls i changes (s, c) = (o, (s', c')) -> store_inv s'.
Proof.
  intros Hcls Hinv. unfold update.
  destruct (tablename cls) as [tbl|] eqn:Htbl; [|by intros [= _ <- _]].
  destruct (get_by_id s tbl i) as [old|]; [|by intros [= _ <- _]].
  destruct (model_validate cls _ c) as [[r|es] c1] eqn:Hv; [|by intros [= _ <- _]].
  set (r' := set_attr "id" (VInt i) r).
  set (swap := fun o : Row => if has_id i o then r' else o).
  destruct (write _ _ _ _ _ _) as [[w|e] s1] eqn:Hw; intros [= <- <- <-];
    [|by rewrite (write_Failed _ _ _ _ _ _ _ _ Hw)].
  apply write_Written in Hw as (_ & -> & Hdup & Hfk).
  assert (column "id" r' = VInt i) as Hid by apply column_set_attr_eq.
  pose proof (keeps_keys_replace s tbl i r' Hid) as Hkeep.
  assert (required_typed cls r') as Htyped by (by eapply created_row_typed).
  assert (forall p x, rows s tbl !! p = Some x -> has_id i x = true -> i = Z.of_nat p + 1)
    as Hpos.
  { intros p x Hp Hx%column_eqb_eq.
    rewrite (inv_ids s Hinv cls tbl p x Hcls Htbl Hp) in Hx. by injection Hx. }
  split.
  - intros cls2 tbl2 p r2 Hcls2 Htbl2. rewrite rows_insert.
    case_decide as E; [subst tbl2|by apply (inv_ids s Hinv cls2)].
    intros (x & -> & Hx)%list_lookup_fmap_Some. unfold swap.
    destruct (has_id i x) eqn:Hi; [|by apply (inv_ids s Hinv cls2 tbl)].
    rewrite Hid. by rewrite (Hpos p x).
  - intros cls2 tbl2 r2 Hcls2 Htbl2. rewrite rows_insert.
    case_decide as E; [subst tbl2|by apply (inv_typed s Hinv cls2)].
    assert (cls2 = cls) as -> by (by eapply metadata_tablename).
    intros (x & -> & Hx)%list_elem_of_fmap. unfold swap.
    destruct (has_id i x); [done | by apply (inv_typed s Hinv _ tbl)].
  - intros cls2 tbl2 name t kw Hcls2 Htbl2 Hf Hu. rewrite rows_insert.
    case_decide as E; [subst tbl2|by apply (inv_unique s Hinv cls2 _ _ t kw)].
    assert (cls2 = cls) as -> by (by eapply metadata_tablename).
    assert (forall x, x ∈ rows s tbl -> has_id i x = false ->
                      column name x <> column name r') as Hnew.
    { intros x Hx Hi.
      eapply (unique_against s cls tbl); [done..| |done].
      apply list_elem_of_filter. split; [by rewrite Hi | done]. }
    intros p q r1 r2 (x1 & -> & H1)%list_lookup_fmap_Some
      (x2 & -> & H2)%list_lookup_fmap_Some. unfold swap.
    destruct (has_id i x1) eqn:Hi1, (has_id i x2) eqn:Hi2; intros Hcol.
    + pose proof (Hpos p x1 H1 Hi1). pose proof (Hpos q x2 H2 Hi2). lia.
    + exfalso. eapply (Hnew x2); [by eapply list_elem_of_lookup_2 | done | done].
    + exfalso. eapply (Hnew x1); [by eapply list_elem_of_lookup_2 | done | done].
    + by eapply (inv_unique s Hinv cls tbl name t kw).
  - intros cls2 tbl2 r2 Hcls2 Htbl2 Hr2.
    apply (dangling_kept s); [done..|]. revert Hr2. rewrite rows_insert.
    case_decide as E; [subst tbl2|by apply (inv_fk s Hinv cls2)].
    assert (cls2 = cls) as -> by (by eapply metadata_tablename).
    intros (x & -> & Hx)%list_elem_of_fmap. unfold swap.
    destruct (has_id i x); [done | by apply (inv_fk s Hinv _ tbl)].
Qed.

Lemma store_inv_empty : store_inv ∅.
Proof.
  split.
  - intros cls tbl i r _ _. by rewrite rows_empty.
  - intros cls tbl r _ _. rewrite rows_empty. by intros ?%elem_of_nil.
  - intros cls tbl name t kw _ _ _ _ i j r1 r2. by rewrite rows_empty.
  - intros cls tbl r _ _. rewrite rows_empty. by intros ?%elem_of_nil.
Qed.

(** The invariant holds in every state the operations reach. *)
Lemma reachable_inv (st : State) : reachable st -> store_inv st.1.
Proof.
  induction 1 as [c|op [s c] Hreach IH Hcls].
  - apply store_inv_empty.
  - destruct (exec op (s, c)) as [o [s' c']] eqn:E. simpl in *.
    destruct op as [cls input|cls i changes]; simpl in *.
    + by eapply create_inv.
    + by eapply update_inv.
Qed.

(** ** Unique emails *)

Lemma reachable_emails_unique (st : State) : reachable st -> emails_unique st.1.
Proof.
  intros Hinv%reachable_inv. split.
  - apply (inv_unique _ Hinv User "users" "email" T_str [unique true; max_length 255]);
      [field_in | done | field_in | done].
  - intros r Hr.
    destruct (inv_typed _ Hinv User "users" r) with
      (name := "email") (t := T_str) (kw := [unique true; max_length 255]) as [_ H];
      [field_in | done | done | field_in | done |]. by apply H.
Qed.

Lemma duplicates_User (others : list Row) (r : Row) :
  duplicates others (model_fields User) r
  = if existsb (fun o => column_eqb (column "email" o) (column "email" r)) others
    then [mkError [LField "email"] unique_violation] else [].
Proof. simpl. by destruct (existsb _ _). Qed.

(** C2. In every reachable state no two rows of users hold the same email
    (and every row holds one); a create or update of a User leaves it so; and
    creating a User whose email a stored User already has fails with a
    ValidationError and writes nothing: when the input is otherwise valid the
    error is the uniqueness violation of email. *)
Theorem user_email_unique :
  (forall st, reachable st -> emails_unique st.1)
  /\ (forall st op, reachable st -> op_class op ∈ metadata ->
        emails_unique (exec op st).2.1)
  /\ (forall s c input e,
        get "email" input = Some (VStr e) ->
        (exists u, u ∈ rows s "users" /\ column "email" u = VStr e) ->
        exists es c',
          create User input (s, c) = (Failed (ValidationError es), (s, c'))
          /\ (forall r, (model_validate User input c).1 = Valid r ->
                es = [mkError [LField "email"] unique_violation])).
Proof.
  split_and!.
  - apply reachable_emails_unique.
  - intros st op Hst Hop. apply reachable_emails_unique. by constructor.
  - intros s c input e Hget (u & Hu & He). unfold create. simpl tablename. cbv iota.
    destruct (model_validate User input c) as [[r|es] c'] eqn:Hv.
    + destruct (instance_required User input r c c' "email" T_str
                  [unique true; max_length 255]) as [_ H];
        [names_distinct | done | field_in | done |].
      destruct H as (e' & Hcol & Hin); [done|].
      assert (e' = e) as -> by congruence.
      unfold write. rewrite duplicates_User.
      rewrite column_set_attr_ne, Hcol by done.
      assert (existsb (fun o => column_eqb (column "email" o) (VStr e))
                (rows s "users") = true) as ->.
      { apply existsb_true_elem. exists u. split; [done|].
        by rewrite He, column_eqb_str. }
      eexists _, _. split; [done|]. by intros r0 [= <-].
    + eexists _, _. split; [done|]. by intros r0.
Qed.

Lemma user_email_unique_witness :
  emails_unique
    (exec (Create User [("name", VStr "Jane Doe"); ("email", VStr "jane@example.com")])
       (∅, epoch_clock)).2.1
  /\ exists es c',
       create User [("name", VStr "J. Doe"); ("email", VStr "jane@example.com")]
         (exec (Create User
                  [("name", VStr "Jane Doe"); ("email", VStr "jane@example.com")])
            (∅, epoch_clock)).2
       = (Failed (ValidationError es),
          ((exec (Create User
                   [("name", VStr "Jane Doe"); ("email", VStr "jane@example.com")])
             (∅, epoch_clock)).2.1, c'))
       /\ (forall r,
             (model_validate User
                [("name", VStr "J. Doe"); ("email", VStr "jane@example.com")]
                (mkClock Z.of_nat 2)).1 = Valid r ->
             es = [mkError [LField "email"] unique_violation]).
Proof.
  split.
  - apply (proj1 user_email_unique
             (exec (Create User
                      [("name", VStr "Jane Doe"); ("email", VStr "jane@example.com")])
                (∅, epoch_clock)).2).
    apply (reachable_exec
             (Create User [("name", VStr "Jane Doe"); ("email", VStr "jane@example.com")])
             (∅, epoch_clock)).
    + apply reachable_empty.
    + field_in.
  - apply (proj2 (proj2 user_email_unique)
             (<["users" := [[("id", VInt 1); ("name", VStr "Jane Doe");
                            ("email", VStr "jane@example.com"); ("is_active", VBool true);
                            ("created_at", VDatetime 0); ("updated_at", VDatetime 1)]]]> ∅)
             (mkClock Z.of_nat 2)
             [("name", VStr "J. Doe"); ("email", VStr "jane@example.com")]
             "jane@example.com").
    + reflexivity.
    + eexists. split; [rewrite rows_insert; simpl; left | reflexivity].
Defined.

Example duplicate_email_refused :
  (create User [("name", VStr "J. Doe"); ("email", VStr "jane@example.com")]
     (exec (Create User [("name", VStr "Jane Doe"); ("email", VStr "jane@example.com")])
        (∅, epoch_clock)).2).1
  = Failed (ValidationError [mkError [LField "email"] unique_violation]).
Proof. vm_compute. reflexivity. Qed.

(** ** Foreign keys *)

Lemma parent_exists_row (s : Store) (target tbl : string) (k : Z) :
  split_dot target = (tbl, "id") ->
  parent_exists s target (VInt k) = true <-> row_exists s tbl k.
Proof.
  intros E. rewrite parent_exists_spec, E. unfold row_exists; simpl.
  split; intros (p & Hp & H); exists p; (split; [done|]).
  - by apply column_eqb_eq.
  - by rewrite H, column_eqb_int.
Qed.

Lemma reachable_foreign_keys (st : State) : reachable st -> foreign_keys_hold st.1.
Proof.
  intros Hinv%reachable_inv cls tbl r name t kw target Hcls Htbl Hr Hf Hfk.
  destruct (metadata_foreign_keys cls name t kw target) as (-> & Hreq & Hid); [done..|].
  destruct (inv_typed _ Hinv cls tbl r Hcls Htbl Hr name T_int kw Hf Hreq) as [[k Hk] _];
    [done|].
  exists k. split_and!; [done..|].
  pose proof (inv_fk _ Hinv cls tbl r Hcls Htbl Hr) as Hd.
  destruct (proj1 (dangling_None _ _ _) Hd name T_int kw target Hf Hfk) as [E|E];
    [congruence|].
  rewrite Hk in E. eapply parent_exists_row; [|done].
  rewrite <- Hid. by destruct (split_dot target).
Qed.

Lemma dangling_Prescription (s : Store) (r : Row) (img ses : Z) :
  column "image_id" r = VInt img -> column "analysis_session_id" r = VInt ses ->
  dangling s (model_fields Prescription) r
  = if parent_exists s "prescription_images.id" (VInt img)
    then if parent_exists s "analysis_sessions.id" (VInt ses) then None
         else Some ("analysis_session_id", "analysis_sessions.id")
    else Some ("image_id", "prescription_images.id").
Proof.
  intros H1 H2.
  cbn [dangling model_fields Prescription Field get_foreign_key].
  by rewrite H1, H2.
Qed.

(** C3. Creating a Prescription from a valid input whose image_id or
    analysis_session_id is the primary key of no stored row fails with a
    ReferentialError that names the attribute, and the store is unchanged; no
    failed operation writes; and in every reachable state every foreign key
    of every stored row is the primary key of a row of the table it points
    to. *)
Theorem prescription_foreign_keys :
  (forall s c input r c' img ses,
     model_validate Prescription input c = (Valid r, c') ->
     get "image_id" input = Some (VInt img) ->
     get "analysis_session_id" input = Some (VInt ses) ->
     ~ row_exists s "prescription_images" img \/ ~ row_exists s "analysis_sessions" ses ->
     exists attr target,
       create Prescription input (s, c) = (Failed (ReferentialError attr target), (s, c'))
       /\ ((attr = "image_id" /\ target = "prescription_images.id"
            /\ ~ row_exists s "prescription_images" img)
           \/ (attr = "analysis_session_id" /\ target = "analysis_sessions.id"
               /\ ~ row_exists s "analysis_sessions" ses)))
  /\ (forall op st e st', exec op st = (Failed e, st') -> st'.1 = st.1)
  /\ (forall st, reachable st -> foreign_keys_hold st.1).
Proof.
  split_and!.
  - intros s c input r c' img ses Hv Himg Hses Hmiss.
    unfold create. simpl tablename. cbv iota. rewrite Hv.
    destruct (instance_required Prescription input r c c' "image_id" T_int
                [foreign_key "prescription_images.id"]) as [H1 _];
      [names_distinct | done | field_in | done |].
    destruct H1 as (k1 & Hc1 & Hk1); [done|].
    destruct (instance_required Prescription input r c c' "analysis_session_id" T_int
                [foreign_key "analysis_sessions.id"]) as [H2 _];
      [names_distinct | done | field_in | done |].
    destruct H2 as (k2 & Hc2 & Hk2); [done|].
    assert (k1 = img) as -> by congruence. assert (k2 = ses) as -> by congruence.
    unfold write. simpl duplicates.
    rewrite (dangling_Prescription s _ img ses)
      by (by rewrite column_set_attr_ne by done).
    destruct (parent_exists s "prescription_images.id" (VInt img)) eqn:E1.
    + destruct (parent_exists s "analysis_sessions.id" (VInt ses)) eqn:E2.
      * exfalso. apply (parent_exists_row s _ "prescription_images") in E1; [|done].
        apply (parent_exists_row s _ "analysis_sessions") in E2; [|done].
        by destruct Hmiss.
      * eexists _, _. split; [done|]. right. split_and!; [done..|].
        intros H. apply (parent_exists_row s "analysis_sessions.id") in H; [|done].
        congruence.
    + eexists _, _. split; [done|]. left. split_and!; [done..|].
      intros H. apply (parent_exists_row s "prescription_images.id") in H; [|done].
      congruence.
  - intros op st e st'. apply exec_Failed.
  - apply reachable_foreign_keys.
Qed.

Lemma prescription_foreign_keys_witness :
  exists attr target,
    create Prescription [("image_id", VInt 7); ("analysis_session_id", VInt 1)]
      (∅, epoch_clock)
    = (Failed (ReferentialError attr target), (∅, mkClock Z.of_nat 2))
    /\ ((attr = "image_id" /\ target = "prescription_images.id"
         /\ ~ row_exists ∅ "prescription_images" 7)
        \/ (attr = "analysis_session_id" /\ target = "analysis_sessions.id"
            /\ ~ row_exists ∅ "analysis_sessions" 1)).
Proof.
  apply (proj1 prescription_foreign_keys ∅ epoch_clock
           [("image_id", VInt 7); ("analysis_session_id", VInt 1)]
           (model_validate_instance Prescription
              [("image_id", VInt 7); ("analysis_session_id", VInt 1)] epoch_clock)
           (mkClock Z.of_nat 2) 7 1).
  - reflexivity.
  - reflexivity.
  - reflexivity.
  - left. intros (p & Hp & _). rewrite rows_empty in Hp. by apply elem_of_nil in Hp.
Defined.

(** ** Medications in display order *)






Lemma validate_fields_cons_Valid (f : field) (fs : list field)
    (kv r : list (string * value)) (v : value) (c c1 c2 : Clock) :
  validate_field validate f kv c = (Valid v, c1) ->
  validate_fields validate fs kv c1 = (Valid r, c2) ->
  validate_fields validate (f :: fs) kv c = (Valid ((f.1, v) :: r), c2).
Proof. intros H1 H2. rewrite validate_fields_cons, H1. simpl. by rewrite H2. Qed.






Lemma run_reachable (ops : list Op) (st : State) :
  reachable st -> Forall (fun op => op_class op ∈ metadata) ops -> reachable (run ops st).
Proof.
  intros Hst Hops. revert st Hst.
  induction Hops as [|op ops Hop _ IH]; intros st Hst; simpl; [done|].
  apply IH. by constructor.
Qed.

Lemma analysed_reachable : reachable analysed.
Proof.
  apply run_reachable; [apply reachable_empty|].
  repeat constructor; field_in.
Qed.

Example analysed_tables :
  (fun t => length (rows analysed.1 t)) <$>
    ["users"; "prescription_images"; "analysis_sessions"; "prescriptions"; "medications"]
  = [1; 1; 1; 1; 0]%nat.
Proof. vm_compute. reflexivity. Qed.



(** Created with order indexes 1 then 0, the two medications are listed in
    the order 0 then 1. *)
Example listing_by_order_index :
  (fun r => (column "name" r, order_index_of r)) <$>
    list_medications
      (run [Create Medication (medication_input "Ibuprofen" 1 1);
            Create Medication (medication_input "Amoxicillin" 0 1)] analysed).1 1
  = [(VStr "Amoxicillin", 0); (VStr "Ibuprofen", 1)].
Proof. vm_compute. reflexivity. Qed.

(** * Further properties of the declarations *)

Lemma all_models_names_distinct (cls : SQLModel) :
  cls ∈ all_models -> NoDup (field_names cls).
Proof. intros H. each_class H; names_distinct. Qed.

(** ** Lengths of strings *)




(** ** Image dimensions *)

Lemma validate_dimension (n : Z) (c : Clock) :
  validate (Optional T_int) [default VNone; ge (Dint 0)] (VInt n) c
  = (if 0 <=? n then Valid (VInt n) else Invalid [mkError [] greater_than_equal], c).
Proof. simpl. unfold validate_int; simpl. rewrite Dleb_int. by destruct (0 <=? n). Qed.

(** X2. width and height of PrescriptionImage and PrescriptionImageUpload take
    zero and every positive int, refuse a negative one with an error naming
    the attribute, and are None when the caller leaves them out. *)
Theorem image_dimensions (cls : SQLModel) (name : string)
    (input : list (string * value)) (c : Clock) :
  cls ∈ [PrescriptionImage; PrescriptionImageUpload] ->
  name ∈ ["width"; "height"] ->
  (forall n, get name input = Some (VInt n) ->
     (n < 0 -> rejected_for cls input c name)
     /\ (0 <= n -> accepted_for cls input c name /\ instance_holds cls input c name (VInt n)))
  /\ (get name input = None -> instance_holds cls input c name VNone).
Proof.
  intros Hcls Hname.
  assert (Field name (Optional T_int) [default VNone; ge (Dint 0)] ∈ model_fields cls
          /\ NoDup (field_names cls)) as [Hin Hnd].
  { repeat (apply elem_of_cons in Hcls as [->|Hcls]); [| |by apply elem_of_nil in Hcls];
      (repeat (apply elem_of_cons in Hname as [->|Hname]);
         [| |by apply elem_of_nil in Hname]);
      (split; [field_in | names_distinct]). }
  split.
  - intros n Hget. split; intros Hn.
    + eapply (field_rejected _ _ _ _ _ _ (mkError [] greater_than_equal)); [done..|].
      intros c1. rewrite validate_dimension. destruct (Z.leb_spec 0 n); [lia | left].
    + split.
      * eapply field_accepted; [done..|].
        intros c1. rewrite validate_dimension. by destruct (Z.leb_spec 0 n); [|lia].
      * intros r c' Hv.
        destruct (field_of_instance _ _ _ _ _ _ Hnd Hin Hv) as (v & c1 & c2 & Hr & Hf).
        rewrite (validate_field_given _ _ _ _ (VInt n)), validate_dimension in Hf by done.
        destruct (Z.leb_spec 0 n); [|lia]. by injection Hf as <- _.
  - intros Hget r c' Hv. by eapply (default_of_instance cls).
Qed.

Lemma image_dimensions_witness :
  (forall n,
     get "width" [("filename", VStr "rx.png"); ("file_size", VInt 1);
                  ("mime_type", VStr "image/png"); ("width", VInt 0)] = Some (VInt n) ->
     (n < 0 -> rejected_for PrescriptionImageUpload
        [("filename", VStr "rx.png"); ("file_size", VInt 1);
         ("mime_type", VStr "image/png"); ("width", VInt 0)] epoch_clock "width")
     /\ (0 <= n -> accepted_for PrescriptionImageUpload
           [("filename", VStr "rx.png"); ("file_size", VInt 1);
            ("mime_type", VStr "image/png"); ("width", VInt 0)] epoch_clock "width"
         /\ instance_holds PrescriptionImageUpload
           [("filename", VStr "rx.png"); ("file_size", VInt 1);
            ("mime_type", VStr "image/png"); ("width", VInt 0)] epoch_clock "width"
           (VInt n)))
  /\ (get "width" [("filename", VStr "rx.png"); ("file_size", VInt 1);
                   ("mime_type", VStr "image/png"); ("width", VInt 0)] = None ->
      instance_holds PrescriptionImageUpload
        [("filename", VStr "rx.png"); ("file_size", VInt 1);
         ("mime_type", VStr "image/png"); ("width", VInt 0)] epoch_clock "width" VNone).
Proof.
  apply (image_dimensions PrescriptionImageUpload "width").
  - field_in.
  - field_in.
Defined.

(** ** Required attributes *)





(** ** None *)

Lemma validate_None (t : annotation) (kw : list kwarg) (c : Clock) :
  validate t kw VNone c
  = if is_optional t then (Valid VNone, c)
    else (Invalid (errors_of (validate t kw VNone c).1), c).
Proof. by destruct t. Qed.

Lemma validate_None_refused (t : annotation) (kw : list kwarg) (c : Clock) :
  is_optional t = false -> exists e, errors_of (validate t kw VNone c).1 = [e].
Proof. destruct t; try done; intros _; by eexists. Qed.

(** X4. In every class an explicit None is taken by each Optional attribute,
    whatever its constraints, and kept in the instance; given to an attribute
    that is not Optional it is refused with an error naming the attribute. *)
Theorem explicit_None (cls : SQLModel) (name : string) (t : annotation)
    (kw : list kwarg) (input : list (string * value)) (c : Clock) :
  cls ∈ all_models ->
  Field name t kw ∈ model_fields cls ->
  get name input = Some VNone ->
  (is_optional t = true ->
     accepted_for cls input c name /\ instance_holds cls input c name VNone)
  /\ (is_optional t = false -> rejected_for cls input c name).
Proof.
  intros Hcls Hf Hget. pose proof (all_models_names_distinct cls Hcls) as Hnd. split.
  - intros Hopt. split.
    + eapply field_accepted; [done..|]. intros c1. by rewrite validate_None, Hopt.
    + intros r c' Hv.
      destruct (field_of_instance _ _ _ _ _ _ Hnd Hf Hv) as (v & c1 & c2 & Hr & Hfv).
      rewrite (validate_field_given _ _ _ _ VNone), validate_None, Hopt in Hfv by done.
      by injection Hfv as <- _.
  - intros Hopt.
    destruct (validate_None_refused t kw c Hopt) as [e He].
    eapply (field_rejected _ _ _ _ _ _ e); [done..|].
    intros c1. destruct t; try done; simpl in *; injection He as <-; left.
Qed.

Lemma explicit_None_witness :
  (is_optional T_int = true ->
     accepted_for Medication
       [("name", VStr "Amoxicillin"); ("order_index", VNone); ("prescription_id", VInt 1)]
       epoch_clock "order_index"
     /\ instance_holds Medication
       [("name", VStr "Amoxicillin"); ("order_index", VNone); ("prescription_id", VInt 1)]
       epoch_clock "order_index" VNone)
  /\ (is_optional T_int = false ->
     rejected_for Medication
       [("name", VStr "Amoxicillin"); ("order_index", VNone); ("prescription_id", VInt 1)]
       epoch_clock "order_index").
Proof.
  apply (explicit_None Medication "order_index" T_int [default (VInt 0); ge (Dint 0)]).
  - field_in.
  - field_in.
  - reflexivity.
Defined.

(** ** Enum members from their values *)

(** X5. status and medication_type take every value string of their enum and
    every member, and the instance holds the member. *)
Theorem enum_members_taken :
  (forall cls input c (m : AnalysisStatus) kw v,
     cls ∈ all_models ->
     Field "status" T_AnalysisStatus kw ∈ model_fields cls ->
     get "status" input = Some v ->
     v = VStr (AnalysisStatus_.value m) \/ v = VAnalysisStatus m ->
     accepted_for cls input c "status"
     /\ instance_holds cls input c "status" (VAnalysisStatus m))
  /\ (forall cls input c (m : MedicationType) kw v,
     cls ∈ all_models ->
     Field "medication_type" (Optional T_MedicationType) kw ∈ model_fields cls ->
     get "medication_type" input = Some v ->
     v = VStr (MedicationType_.value m) \/ v = VMedicationType m ->
     accepted_for cls input c "medication_type"
     /\ instance_holds cls input c "medication_type" (VMedicationType m)).
Proof.
  split.
  - intros cls input c m kw v Hcls Hf Hget Hv.
    pose proof (all_models_names_distinct cls Hcls) as Hnd.
    assert (forall c1, validate T_AnalysisStatus kw v c1 = (Valid (VAnalysisStatus m), c1))
      as Hval.
    { intros c1. destruct Hv as [-> | ->]; [|done]. simpl.
      unfold validate_AnalysisStatus.
      by rewrite (proj2 (AnalysisStatus_of_value_spec _ m)). }
    split.
    + eapply field_accepted; [done..|]. intros c1. by rewrite Hval.
    + intros r c' Hr.
      destruct (field_of_instance _ _ _ _ _ _ Hnd Hf Hr) as (v' & c1 & c2 & Hg & Hfv).
      rewrite (validate_field_given _ _ _ _ v), Hval in Hfv by done.
      by injection Hfv as <- _.
  - intros cls input c m kw v Hcls Hf Hget Hv.
    pose proof (all_models_names_distinct cls Hcls) as Hnd.
    assert (forall c1, validate (Optional T_MedicationType) kw v c1
                       = (Valid (VMedicationType m), c1)) as Hval.
    { intros c1. destruct Hv as [-> | ->]; [|done]. simpl.
      unfold validate_MedicationType.
      by rewrite (proj2 (MedicationType_of_value_spec _ m)). }
    split.
    + eapply field_accepted; [done..|]. intros c1. by rewrite Hval.
    + intros r c' Hr.
      destruct (field_of_instance _ _ _ _ _ _ Hnd Hf Hr) as (v' & c1 & c2 & Hg & Hfv).
      rewrite (validate_field_given _ _ _ _ v), Hval in Hfv by done.
      by injection Hfv as <- _.
Qed.

Lemma enum_members_taken_witness :
  accepted_for AnalysisSession
    [("status", VStr "completed"); ("user_id", VInt 1); ("image_id", VInt 1)]
    epoch_clock "status"
  /\ instance_holds AnalysisSession
    [("status", VStr "completed"); ("user_id", VInt 1); ("image_id", VInt 1)]
    epoch_clock "status" (VAnalysisStatus COMPLETED).
Proof.
  apply (proj1 enum_members_taken AnalysisSession _ epoch_clock COMPLETED
           [default (VAnalysisStatus PENDING)] (VStr "completed")).
  - field_in.
  - field_in.
  - reflexivity.
  - by left.
Defined.

(** ** The attributes of an instance *)



(** ** Defaults and validation *)

Lemma all_defaults_valid :
  Forall (fun cls => Forall default_valid (model_fields cls)) all_models.
Proof.
  repeat (apply List.Forall_cons;
          [ unfold model_fields; simpl;
            repeat (apply List.Forall_cons;
                    [ unfold default_valid; simpl; first [exact I | intros; reflexivity] | ]);
            apply List.Forall_nil | ]).
  apply List.Forall_nil.
Qed.

Lemma default_valid_in (cls : SQLModel) (f : field) :
  cls ∈ all_models -> f ∈ model_fields cls -> default_valid f.
Proof.
  intros Hcls Hf.
  pose proof (proj1 (List.Forall_forall _ _) all_defaults_valid cls) as H.
  apply (proj1 (List.Forall_forall _ _) (H (proj1 (list_elem_of_In _ _) Hcls))).
  by apply list_elem_of_In.
Qed.

(** X7. Every default value declared in models.py is a value its own attribute
    takes unchanged, and every attribute with the utcnow factory takes the
    datetime the factory gives: an attribute left out is as valid as a given
    one, although validation is not run on defaults. *)
Theorem declared_defaults_valid (cls : SQLModel) (name : string) (t : annotation)
    (kw : list kwarg) :
  cls ∈ all_models -> Field name t kw ∈ model_fields cls ->
  (forall v c, get_default kw = DefaultValue v -> validate t kw v c = (Valid v, c))
  /\ (forall d c, get_default kw = DefaultFactory utcnow ->
        validate t kw (VDatetime d) c = (Valid (VDatetime d), c)).
Proof.
  intros Hcls Hf. pose proof (default_valid_in cls _ Hcls Hf) as H.
  unfold default_valid, Field in H; simpl in H. split.
  - intros v c E. rewrite E in H. apply H.
  - intros d c E. rewrite E in H. apply H.
Qed.

Lemma declared_defaults_valid_witness :
  (forall v c,
     get_default [default (VInt 0); ge (Dint 0)] = DefaultValue v ->
     validate T_int [default (VInt 0); ge (Dint 0)] v c = (Valid v, c))
  /\ (forall d c,
     get_default [default (VInt 0); ge (Dint 0)] = DefaultFactory utcnow ->
     validate T_int [default (VInt 0); ge (Dint 0)] (VDatetime d) c
     = (Valid (VDatetime d), c)).
Proof.
  apply (declared_defaults_valid MedicationCreate "order_index").
  - field_in.
  - field_in.
Defined.

(** ** Validating an instance again *)

Lemma checked_Valid {A} (a a' : A) (es : list ErrorDetails) :
  checked a es = Valid a' -> es = [] /\ a' = a.
Proof. destruct es; [by intros [= <-] | done]. Qed.

Lemma validate_items_again (t : annotation) (vs l : list value) (i : nat) (c c' : Clock) :
  (forall v c v' c', validate t [] v c = (Valid v', c') ->
                     forall c2, validate t [] v' c2 = (Valid v', c2)) ->
  validate_items validate t i vs c = (Valid l, c') ->
  forall j c2, validate_items validate t j l c2 = (Valid l, c2).
Proof.
  intros IH. revert i c l. induction vs as [|v vs IHvs]; intros i c l; simpl.
  - by intros [= <- <-].
  - destruct (validate t [] v c) as [r c1] eqn:E1.
    destruct (validate_items validate t (S i) vs c1) as [rs c2'] eqn:E2.
    intros [= H ->]. apply cons_result_Valid in H as (x & l' & -> & -> & ->).
    intros j c2. simpl. rewrite (IH _ _ _ _ E1 c2).
    by rewrite (IHvs _ _ _ E2 (S j) c2).
Qed.

(** A value that came out of the validation of an annotation goes through
    it again unchanged, without a reading of the clock. *)
Lemma validate_again (t : annotation) (kw : list kwarg) (v v' : value) (c c' : Clock) :
  validate t kw v c = (Valid v', c') ->
  forall c2, validate t kw v' c2 = (Valid v', c2).
Proof.
  revert kw v v' c c'.
  induction t as [| | | | | | |t IH|t IH| |cls fs]; intros kw v v' c c'; simpl.
  - unfold validate_int. destruct v; try done.
    intros [= [E ->]%checked_Valid _] c2. by rewrite E.
  - unfold validate_str. destruct v; try done.
    intros [= [E ->]%checked_Valid _] c2. by rewrite E.
  - destruct v; try done. by intros [= <- _] c2.
  - destruct v; try done. by intros [= <- _] c2.
  - unfold validate_Decimal. destruct (as_decimal v) as [d|]; [|done].
    intros [= [E ->]%checked_Valid _] c2. simpl. by rewrite E.
  - unfold validate_AnalysisStatus. destruct v; try done.
    + destruct (AnalysisStatus_.of_value s); [|done]. by intros [= <- _] c2.
    + by intros [= <- _] c2.
  - unfold validate_MedicationType. destruct v; try done.
    + destruct (MedicationType_.of_value s); [|done]. by intros [= <- _] c2.
    + by intros [= <- _] c2.
  - intros H c2.
    assert (validate t kw v' c2 = (Valid v', c2) \/ v' = VNone) as [H'| ->].
    { destruct v; try (left; by eapply IH). injection H as <- _. by right. }
    + by destruct v'.
    + done.
  - destruct v; try done.
    destruct (validate_items validate t 0 l c) as [r c1] eqn:E.
    destruct r as [l'|]; [|done]. intros [= <- _] c2. simpl.
    by rewrite (validate_items_again t l l' 0 c c1 (fun v c v' c' => IH [] v v' c c') E 0%nat c2).
  - destruct v; try done. by intros [= <- _] c2.
  - destruct v; try done.
    + destruct (validate_fields validate fs kv c) as [r c1].
      destruct r as [l|]; [|done]. intros [= <- _] c2. simpl.
      by rewrite String.eqb_refl.
    + destruct (String.eqb cls cls0) eqn:E; [|done]. intros [= <- _] c2. simpl.
      by rewrite E.
Qed.

Lemma get_app_notin (k : string) (pre l : list (string * value)) :
  k ∉ pre.*1 -> get k (pre ++ l) = get k l.
Proof.
  induction pre as [|[k' v] pre IH]; simpl; [done|].
  intros H. apply not_elem_of_cons in H as [H1 H2].
  destruct (String.eqb_spec k' k); [congruence | by apply IH].
Qed.

(** In an instance with distinct attribute names each attribute is found
    under its name. *)
Lemma Forall2_get (P : field -> value -> Prop) (pre : list (string * value))
    (fs : list field) (r : list (string * value)) :
  NoDup fs.*1 -> (forall k, k ∈ fs.*1 -> k ∉ pre.*1) ->
  Forall2 (fun f a => a.1 = f.1 /\ P f a.2) fs r ->
  Forall2 (fun f a => a.1 = f.1 /\ P f a.2 /\ get f.1 (pre ++ r) = Some a.2) fs r.
Proof.
  intros Hnd Hpre H. revert pre Hpre.
  induction H as [|f [k v] fs r [Hk HP] _ IH]; intros pre Hpre; [constructor|].
  simpl in Hk. subst k. simpl in Hnd. apply NoDup_cons in Hnd as [Hf Hnd].
  constructor.
  - split_and!; [done..|]. rewrite get_app_notin by (apply Hpre; left).
    simpl. by rewrite String.eqb_refl.
  - replace (pre ++ (f.1, v) :: r) with ((pre ++ [(f.1, v)]) ++ r)
      by (by rewrite <- app_assoc).
    apply IH; [done|]. intros k Hk. rewrite fmap_app. simpl.
    intros [H|H%list_elem_of_singleton]%elem_of_app.
    + apply (Hpre k); [by right | done].
    + by subst k.
Qed.

Lemma validate_fields_given (fs : list field) (R r : list (string * value)) :
  Forall2 (fun f a => a.1 = f.1 /\
             (forall c, validate f.2.1 f.2.2 a.2 c = (Valid a.2, c))
             /\ get f.1 R = Some a.2) fs r ->
  forall c, validate_fields validate fs R c = (Valid r, c).
Proof.
  induction 1 as [|[n [t kw]] [k v] fs r (Hk & Hv & Hg) _ IH]; intros c; [done|].
  simpl in *. subst k.
  apply (validate_fields_cons_Valid (n, (t, kw)) fs R r v c c c); [|apply IH].
  unfold validate_field. rewrite Hg. apply Hv.
Qed.

(** The valid outcome of an attribute of a class of models.py is a value the
    attribute takes unchanged. *)
Lemma field_outcome_again (cls : SQLModel) (f : field) (input : list (string * value))
    (v : value) (c1 c2 : Clock) :
  cls ∈ all_models -> f ∈ model_fields cls ->
  validate_field validate f input c1 = (Valid v, c2) ->
  forall c, validate f.2.1 f.2.2 v c = (Valid v, c).
Proof.
  intros Hcls Hf H. pose proof (default_valid_in cls f Hcls Hf) as Hd.
  destruct f as [n [t kw]]. unfold validate_field in H. unfold default_valid in Hd.
  simpl in *. destruct (get n input) as [x|].
  - by eapply validate_again.
  - destruct (get_default kw) as [|d|[]]; [done| |].
    + by injection H as <- _.
    + injection H as <- _. apply Hd.
Qed.

Lemma Forall2_in_l {A B} (P : A -> B -> Prop) (l : list A) (k : list B) :
  Forall2 P l k -> Forall2 (fun x y => P x y /\ x ∈ l) l k.
Proof.
  induction 1 as [|x y l k H _ IH]; constructor.
  - split; [done | left].
  - eapply Forall2_impl; [exact IH|]. intros ?? [??]. split; [done | by right].
Qed.

(** X8. A valid instance of any class of models.py, given back as the input,
    validates to itself, and no clock is read: what the attributes hold after
    validation (defaults and factory readings included) satisfies every
    declared constraint. *)
Theorem instance_validates_to_itself (cls : SQLModel) (input r : list (string * value))
    (c c' : Clock) :
  cls ∈ all_models ->
  model_validate cls input c = (Valid r, c') ->
  forall c2, model_validate cls r c2 = (Valid r, c2).
Proof.
  intros Hcls H%validate_fields_Valid%Forall2_in_l c2.
  pose proof (all_models_names_distinct cls Hcls) as Hnd.
  apply validate_fields_given.
  apply (Forall2_get
           (fun f v => forall c, validate f.2.1 f.2.2 v c = (Valid v, c)) [] _ r Hnd).
  - intros k _ ?%elem_of_nil. done.
  - eapply Forall2_impl; [exact H|].
    intros f a [[Hk (c1 & c3 & Hf)] Hin]. split; [done|].
    by eapply field_outcome_again.
Qed.

Lemma instance_validates_to_itself_witness :
  model_validate AnalysisSession
    (model_validate_instance AnalysisSession
       [("status", VStr "completed"); ("confidence_score", VInt 1);
        ("user_id", VInt 1); ("image_id", VInt 1)] epoch_clock)
    epoch_clock
  = (Valid (model_validate_instance AnalysisSession
       [("status", VStr "completed"); ("confidence_score", VInt 1);
        ("user_id", VInt 1); ("image_id", VInt 1)] epoch_clock),
     epoch_clock).
Proof.
  apply (instance_validates_to_itself AnalysisSession
           [("status", VStr "completed"); ("confidence_score", VInt 1);
            ("user_id", VInt 1); ("image_id", VInt 1)] _ epoch_clock
           (mkClock Z.of_nat 1)).
  - field_in.
  - reflexivity.
Defined.

(** ** Request shapes against their table classes *)

Lemma find_field_Some (fs : list field) (f : field) :
  NoDup fs.*1 -> f ∈ fs -> find_field f.1 fs = Some f.
Proof.
  unfold find_field. induction fs as [|g fs IH]; [by intros _ ?%elem_of_nil|].
  simpl. intros [Hg Hnd]%NoDup_cons [->|Hin]%elem_of_cons.
  - by rewrite String.eqb_refl.
  - destruct (String.eqb_spec g.1 f.1) as [E|E]; [|by apply IH].
    exfalso. apply Hg. rewrite E. by apply list_elem_of_fmap_2.
Qed.

(** X9. An attribute a request shape shares with its table class is declared in
    both with the same annotation and the same default, and validates every
    value to the same outcome: what a request shape takes for a column, the
    table class takes too.  (The declarations differ only in [unique] and
    [foreign_key], which validation does not read.) *)
Theorem create_shape_agrees (shape entity : SQLModel) (name : string)
    (ts te : annotation) (ks ke : list kwarg) (v : value) (c : Clock) :
  (shape, entity) ∈ create_shapes ->
  Field name ts ks ∈ model_fields shape ->
  Field name te ke ∈ model_fields entity ->
  ts = te /\ get_default ks = get_default ke
  /\ validate ts ks v c = validate te ke v c.
Proof.
  intros Hp Hs He.
  assert (entity ∈ all_models) as Hall.
  { repeat (apply elem_of_cons in Hp as [[= -> ->]|Hp]); [..|by apply elem_of_nil in Hp];
      field_in. }
  pose proof (find_field_Some _ _ (all_models_names_distinct entity Hall) He) as Hfind.
  repeat (apply elem_of_cons in Hp as [[= -> ->]|Hp]); [..|by apply elem_of_nil in Hp];
    each_field Hs; simpl in Hfind; try discriminate Hfind;
    injection Hfind as <- <-; by split_and!.
Qed.

Lemma create_shape_agrees_witness :
  T_str = T_str
  /\ get_default [max_length 255] = get_default [unique true; max_length 255]
  /\ validate T_str [max_length 255] (VStr "jane@example.com") epoch_clock
     = validate T_str [unique true; max_length 255] (VStr "jane@example.com") epoch_clock.
Proof.
  apply (create_shape_agrees UserCreate User "email").
  - field_in.
  - field_in.
  - field_in.
Defined.

(** ** Readings of the clock *)

Lemma later_0 (c : Clock) : later 0 c = c.
Proof. destruct c. unfold later; simpl. f_equal. lia. Qed.

Lemma later_later (n m : nat) (c : Clock) : later m (later n c) = later (n + m) c.
Proof. unfold later; simpl. f_equal. lia. Qed.

Lemma validate_flat (t : annotation) (kw : list kwarg) (v : value) (c : Clock) :
  flat t = true -> (validate t kw v c).2 = c.
Proof.
  induction t; simpl; try done.
  - intros H. destruct v; try done; by apply IHt.
  - by destruct v.
Qed.

Lemma validate_field_flat (f : field) (kv : list (string * value)) (c : Clock) :
  flat f.2.1 = true ->
  (validate_field validate f kv c).2 = later (if reads_clock kv f then 1 else 0) c.
Proof.
  destruct f as [n [t kw]]. unfold validate_field, reads_clock, is_factory, is_given.
  simpl. intros Hflat. destruct (get n kv) as [v|].
  - rewrite validate_flat by done. rewrite andb_false_r. by rewrite later_0.
  - destruct (get_default kw) as [|d|[]]; simpl; rewrite ?later_0; try done.
    unfold later. f_equal. lia.
Qed.

Lemma validate_fields_flat (fs : list field) (kv : list (string * value)) (c : Clock) :
  Forall (fun f : field => flat f.2.1 = true) fs ->
  (validate_fields validate fs kv c).2 = later (factory_reads fs kv) c.
Proof.
  intros H. revert c. induction H as [|f fs Hf _ IH]; intros c.
  - by rewrite later_0.
  - rewrite validate_fields_cons. simpl. rewrite IH, validate_field_flat by done.
    unfold factory_reads. simpl. destruct (reads_clock kv f); simpl.
    + by rewrite later_later.
    + by rewrite later_0.
Qed.

Lemma metadata_flat (cls : SQLModel) :
  cls ∈ metadata -> Forall (fun f : field => flat f.2.1 = true) (model_fields cls).
Proof. intros H. each_class H; repeat constructor. Qed.

(** X10. Validation of a table class reads the clock once for each timestamp
    attribute the caller leaves out and never otherwise, whether the input is
    valid or not; it leaves the clock that many readings later. *)
Theorem clock_reads (cls : SQLModel) (input : list (string * value)) (c : Clock) :
  cls ∈ metadata ->
  (model_validate cls input c).2 = later (factory_reads (model_fields cls) input) c.
Proof. intros H. apply validate_fields_flat. by apply metadata_flat. Qed.

Lemma clock_reads_witness :
  (model_validate Prescription
     [("created_at", VDatetime 5); ("image_id", VInt 1)] epoch_clock).2
  = later (factory_reads (model_fields Prescription)
             [("created_at", VDatetime 5); ("image_id", VInt 1)]) epoch_clock.
Proof. apply (clock_reads Prescription). field_in. Defined.

Example clock_reads_once :
  factory_reads (model_fields Prescription)
    [("created_at", VDatetime 5); ("image_id", VInt 1)] = 1%nat.
Proof. reflexivity. Qed.

Lemma validate_fields_app (fs1 fs2 : list field) (kv r : list (string * value))
    (c c' : Clock) :
  validate_fields validate (fs1 ++ fs2) kv c = (Valid r, c') ->
  exists r1 r2,
    validate_fields validate fs1 kv c
      = (Valid r1, (validate_fields validate fs1 kv c).2)
    /\ validate_fields validate fs2 kv (validate_fields validate fs1 kv c).2
      = (Valid r2, c')
    /\ r = r1 ++ r2.
Proof.
  revert c r. induction fs1 as [|f fs1 IH]; intros c r; simpl app.
  - intros H. by exists [], r.
  - rewrite !validate_fields_cons.
    destruct (validate_field validate f kv c) as [rf c1] eqn:Ef. simpl.
    destruct (validate_fields validate (fs1 ++ fs2) kv c1) as [rs c2] eqn:Es. simpl.
    intros [= H ->]. apply cons_result_Valid in H as (v & l & -> & -> & ->).
    destruct (IH _ _ Es) as (r1 & r2 & H1 & H2 & ->).
    exists ((f.1, v) :: r1), r2. rewrite H1. simpl. by rewrite H2.
Qed.

Lemma timestamps_after (pre post : list field) (kv r : list (string * value))
    (c c' : Clock) :
  Forall (fun f : field => flat f.2.1 = true) pre ->
  factory_reads pre kv = 0%nat ->
  "created_at" ∉ pre.*1 -> "updated_at" ∉ pre.*1 ->
  get "created_at" kv = None -> get "updated_at" kv = None ->
  validate_fields validate
    (pre ++ Field "created_at" T_datetime [default_factory utcnow]
         :: Field "updated_at" T_datetime [default_factory utcnow] :: post) kv c
  = (Valid r, c') ->
  get "created_at" r = Some (VDatetime (readings c (ticks c)))
  /\ get "updated_at" r = Some (VDatetime (readings c (S (ticks c)))).
Proof.
  intros Hflat Hreads Hc Hu Hgc Hgu H.
  apply validate_fields_app in H as (r1 & r2 & H1 & H2 & ->).
  rewrite validate_fields_flat, Hreads, later_0 in H2 by done.
  rewrite validate_fields_flat, Hreads, later_0 in H1 by done.
  assert (r1.*1 = pre.*1) as Hkeys.
  { apply validate_fields_Valid in H1. clear -H1.
    induction H1 as [|f a fs r' [Hk _] _ IH]; [done|].
    rewrite !fmap_cons, Hk. by f_equal. }
  rewrite !validate_fields_cons in H2.
  rewrite (validate_field_utcnow "created_at" _ _ kv c) in H2 by done.
  cbn [fst snd] in H2.
  rewrite (validate_field_utcnow "updated_at" _ _ kv) in H2 by done.
  cbn [fst snd now readings ticks] in H2.
  destruct (validate_fields validate post kv _) as [[l|es] c3]; [|done].
  injection H2 as <- _.
  rewrite !get_app_notin by (by rewrite Hkeys). by split.
Qed.

(** X11. A valid User or Prescription built without created_at and updated_at
    holds, as created_at, the reading of the clock when validation starts
    and, as updated_at, the next reading, whatever else the input gives (so on
    a clock that does not run backwards updated_at is never before
    created_at). *)
Theorem timestamps_in_order (cls : SQLModel) (input r : list (string * value))
    (c c' : Clock) :
  cls ∈ [User; Prescription] ->
  get "created_at" input = None -> get "updated_at" input = None ->
  model_validate cls input c = (Valid r, c') ->
  get "created_at" r = Some (VDatetime (readings c (ticks c)))
  /\ get "updated_at" r = Some (VDatetime (readings c (S (ticks c)))).
Proof.
  intros Hcls Hgc Hgu H.
  repeat (apply elem_of_cons in Hcls as [->|Hcls]); [| |by apply elem_of_nil in Hcls].
  - apply (timestamps_after (take 4 (model_fields User)) [] input r c c');
      [repeat constructor | reflexivity | | | done..];
      apply (bool_decide_unpack _); by vm_compute.
  - apply (timestamps_after (take 12 (model_fields Prescription))
             (drop 14 (model_fields Prescription)) input r c c');
      [repeat constructor | reflexivity | | | done..];
      apply (bool_decide_unpack _); by vm_compute.
Qed.

Lemma timestamps_in_order_witness :
  get "created_at"
    (model_validate_instance Prescription
       [("patient_age", VInt 40); ("image_id", VInt 1); ("analysis_session_id", VInt 1)]
       epoch_clock) = Some (VDatetime (readings epoch_clock (ticks epoch_clock)))
  /\ get "updated_at"
    (model_validate_instance Prescription
       [("patient_age", VInt 40); ("image_id", VInt 1); ("analysis_session_id", VInt 1)]
       epoch_clock) = Some (VDatetime (readings epoch_clock (S (ticks epoch_clock)))).
Proof.
  apply (timestamps_in_order Prescription
           [("patient_age", VInt 40); ("image_id", VInt 1); ("analysis_session_id", VInt 1)]
           _ epoch_clock (mkClock Z.of_nat 2)).
  - field_in.
  - reflexivity.
  - reflexivity.
  - reflexivity.
Defined.

(** ** Lists of nested models *)

Lemma errors_of_map_result {A B} (f : A -> B) (r : Result A) :
  errors_of (map_result f r) = errors_of r.
Proof. by destruct r. Qed.

Lemma validate_flat_outcome (t : annotation) (kw : list kwarg) (v : value) (c c' : Clock) :
  flat t = true -> (validate t kw v c).1 = (validate t kw v c').1.
Proof.
  induction t; simpl; try done.
  - intros H. destruct v; try done; by apply IHt.
  - by destruct v.
Qed.

(** The outcome of a class without list, model and factory does not depend
    on the clock. *)
Lemma validate_fields_timeless (fs : list field) (kv : list (string * value))
    (c c' : Clock) :
  Forall (fun f : field => flat f.2.1 = true /\ is_factory f.2.2 = false) fs ->
  (validate_fields validate fs kv c).1 = (validate_fields validate fs kv c').1.
Proof.
  intros H. revert c c'. induction H as [|[n [t kw]] fs [Hflat Hfac] _ IH]; intros c c'.
  - done.
  - rewrite !validate_fields_cons. cbn [fst snd]. simpl in Hflat, Hfac.
    assert ((validate_field validate (n, (t, kw)) kv c).1
            = (validate_field validate (n, (t, kw)) kv c').1) as E.
    { unfold validate_field. destruct (get n kv).
      - by apply validate_flat_outcome.
      - unfold is_factory in Hfac. by destruct (get_default kw). }
    by rewrite E, (IH _ (validate_field validate (n, (t, kw)) kv c').2).
Qed.

Lemma MedicationCreate_timeless (kv : list (string * value)) (c c' : Clock) :
  (model_validate MedicationCreate kv c).1 = (model_validate MedicationCreate kv c').1.
Proof. apply validate_fields_timeless. repeat constructor. Qed.

Lemma validate_MedicationCreate (kv : list (string * value)) (c : Clock) :
  (validate (as_annotation MedicationCreate) [] (VDict kv) c).1
  = map_result (VModel "MedicationCreate") (model_validate MedicationCreate kv c).1.
Proof.
  unfold model_validate.
  change (validate (as_annotation MedicationCreate) [] (VDict kv) c)
    with (let '(r, c') := validate_fields validate (model_fields MedicationCreate) kv c in
          (map_result (VModel "MedicationCreate") r, c')).
  by destruct (validate_fields validate _ kv c).
Qed.

Lemma validate_items_cons (t : annotation) (i : nat) (v : value) (vs : list value)
    (c : Clock) :
  validate_items validate t i (v :: vs) c
  = (cons_result (LIndex i) (validate t [] v c).1 id
       (validate_items validate t (S i) vs (validate t [] v c).2).1,
     (validate_items validate t (S i) vs (validate t [] v c).2).2).
Proof.
  simpl. destruct (validate t [] v c) as [r c1]. simpl.
  by destruct (validate_items validate t (S i) vs c1).
Qed.

(** An error of an item is an error of the list, under the item's index. *)
Lemma validate_items_error (t : annotation) (vs : list value) (k : nat) (v : value)
    (e : ErrorDetails) :
  vs !! k = Some v ->
  (forall c, e ∈ errors_of (validate t [] v c).1) ->
  forall i c, at_loc (LIndex (i + k)) e ∈ errors_of (validate_items validate t i vs c).1.
Proof.
  intros Hk He. revert k Hk. induction vs as [|x vs IH]; intros k Hk i c; [done|].
  rewrite validate_items_cons. simpl. rewrite errors_of_cons_result.
  apply elem_of_app. destruct k as [|k]; simpl in Hk.
  - injection Hk as ->. left. rewrite Nat.add_0_r. apply list_elem_of_fmap_2, He.
  - right. replace (i + S k)%nat with (S i + k)%nat by lia. by apply IH.
Qed.

(** The valid items of a valid list, in order. *)
Lemma validate_items_Valid (t : annotation) (vs l : list value) (i : nat) (c c' : Clock) :
  validate_items validate t i vs c = (Valid l, c') ->
  Forall2 (fun v v' => exists c1, (validate t [] v c1).1 = Valid v') vs l.
Proof.
  revert i c l. induction vs as [|x vs IH]; intros i c l.
  - simpl. intros [= <- _]. constructor.
  - rewrite validate_items_cons. intros [= H Hc].
    apply cons_result_Valid in H as (v & l' & Hv & Hl & ->). constructor; [by exists c|].
    eapply (IH (S i) (validate t [] x c).2 l').
    destruct (validate_items validate t (S i) vs _) as [? ?]; simpl in *. by subst.
Qed.

(** X12. An error of the [k]-th medication of a PrescriptionCreate is an error of
    the prescription, located at medications, [k], and the attribute of the
    medication; the prescription is refused. *)
Theorem nested_medication_errors (input kv : list (string * value)) (ms : list value)
    (k : nat) (e : ErrorDetails) (c : Clock) :
  get "medications" input = Some (VList ms) ->
  ms !! k = Some (VDict kv) ->
  e ∈ errors_of (model_validate MedicationCreate kv c).1 ->
  exists es c',
    model_validate PrescriptionCreate input c = (Invalid es, c')
    /\ mkError (LField "medications" :: LIndex k :: loc e) (type_ e) ∈ es.
Proof.
  intros Hget Hk He.
  assert (forall c2, e ∈ errors_of
            (validate (as_annotation MedicationCreate) [] (VDict kv) c2).1) as Hitem.
  { intros c2. rewrite validate_MedicationCreate, errors_of_map_result.
    by rewrite (MedicationCreate_timeless kv c2 c). }
  assert (forall c1, at_loc (LIndex k) e ∈ errors_of
            (validate (ListOf (as_annotation MedicationCreate)) [default (VList [])]
               (VList ms) c1).1) as Hlist.
  { intros c1.
    pose proof (validate_items_error (as_annotation MedicationCreate) ms k (VDict kv) e
                  Hk Hitem 0%nat c1) as H.
    change (validate (ListOf (as_annotation MedicationCreate)) [default (VList [])]
              (VList ms) c1)
      with (let '(r, c') := validate_items validate (as_annotation MedicationCreate)
                              0 ms c1 in (map_result VList r, c')).
    destruct (validate_items validate _ 0 ms c1) as [r c2]. simpl in *.
    by rewrite errors_of_map_result. }
  assert (at_loc (LField "medications") (at_loc (LIndex k) e)
            ∈ errors_of (model_validate PrescriptionCreate input c).1) as H.
  { apply (validate_fields_error_kept _ _
             (Field "medications" (ListOf (as_annotation MedicationCreate))
                [default (VList [])])); [field_in|].
    intros c1. rewrite (validate_field_given _ _ _ _ (VList ms)) by done. apply Hlist. }
  destruct (model_validate PrescriptionCreate input c) as [r c'] eqn:E; simpl in H.
  exists (errors_of r), c'. split; [|done].
  f_equal. apply Invalid_of_errors. intros E'. rewrite E' in H. by apply elem_of_nil in H.
Qed.

Lemma nested_medication_errors_witness :
  exists es c',
    model_validate PrescriptionCreate
      [("image_id", VInt 1); ("analysis_session_id", VInt 1);
       ("medications",
        VList [VDict [("name", VStr "Amoxicillin")];
               VDict [("name", VStr "Ibuprofen"); ("order_index", VInt (-1))]])]
      epoch_clock = (Invalid es, c')
    /\ mkError (LField "medications" :: LIndex 1
                 :: loc (mkError [LField "order_index"] greater_than_equal))
         (type_ (mkError [LField "order_index"] greater_than_equal)) ∈ es.
Proof.
  apply (nested_medication_errors _
           [("name", VStr "Ibuprofen"); ("order_index", VInt (-1))]
           [VDict [("name", VStr "Amoxicillin")];
            VDict [("name", VStr "Ibuprofen"); ("order_index", VInt (-1))]]
           1 (mkError [LField "order_index"] greater_than_equal) epoch_clock).
  - reflexivity.
  - reflexivity.
  - vm_compute. left.
Defined.

(** X13. The medications of a valid PrescriptionCreate are the caller's, one for
    one and in order, each mapping replaced by the MedicationCreate instance
    it validates to. *)
Theorem nested_medications_valid (input r : list (string * value)) (ms : list value)
    (c c' : Clock) :
  get "medications" input = Some (VList ms) ->
  model_validate PrescriptionCreate input c = (Valid r, c') ->
  exists ms',
    get "medications" r = Some (VList ms')
    /\ length ms' = length ms
    /\ forall k kv, ms !! k = Some (VDict kv) ->
         exists a, ms' !! k = Some (VModel "MedicationCreate" a)
                   /\ (model_validate MedicationCreate kv c).1 = Valid a.
Proof.
  intros Hget Hv.
  destruct (field_of_instance PrescriptionCreate input r c c'
              (Field "medications" (ListOf (as_annotation MedicationCreate))
                 [default (VList [])])) as (v & c1 & c2 & Hr & Hf);
    [names_distinct | field_in | done |].
  rewrite (validate_field_given _ _ _ _ (VList ms)) in Hf by done.
  change (validate (ListOf (as_annotation MedicationCreate)) [default (VList [])]
            (VList ms) c1)
    with (let '(r, c') := validate_items validate (as_annotation MedicationCreate)
                            0 ms c1 in (map_result VList r, c')) in Hf.
  destruct (validate_items validate _ 0 ms c1) as [[l|es] c3] eqn:E; [|done].
  injection Hf as <- _. apply validate_items_Valid in E.
  exists l. split_and!; [done | symmetry; by eapply Forall2_length |].
  intros k kv Hk.
  destruct (Forall2_lookup_l _ _ _ _ _ E Hk) as (v' & Hv' & c4 & H4).
  rewrite validate_MedicationCreate in H4.
  destruct (model_validate MedicationCreate kv c4).1 as [a|] eqn:Ea; [|done].
  injection H4 as <-. exists a. split; [done|].
  by rewrite (MedicationCreate_timeless kv c c4).
Qed.

Lemma nested_medications_valid_witness :
  exists ms',
    get "medications"
      (model_validate_instance PrescriptionCreate
         [("image_id", VInt 1); ("analysis_session_id", VInt 1);
          ("medications",
           VList [VDict [("name", VStr "Amoxicillin")];
                  VDict [("name", VStr "Ibuprofen"); ("order_index", VInt 1)]])]
         epoch_clock) = Some (VList ms')
    /\ length ms'
       = length [VDict [("name", VStr "Amoxicillin")];
                 VDict [("name", VStr "Ibuprofen"); ("order_index", VInt 1)]]
    /\ forall k kv,
         [VDict [("name", VStr "Amoxicillin")];
          VDict [("name", VStr "Ibuprofen"); ("order_index", VInt 1)]] !! k
         = Some (VDict kv) ->
         exists a, ms' !! k = Some (VModel "MedicationCreate" a)
                   /\ (model_validate MedicationCreate kv epoch_clock).1 = Valid a.
Proof.
  apply (nested_medications_valid
           [("image_id", VInt 1); ("analysis_session_id", VInt 1);
            ("medications",
             VList [VDict [("name", VStr "Amoxicillin")];
                    VDict [("name", VStr "Ibuprofen"); ("order_index", VInt 1)]])]
           _ _ epoch_clock epoch_clock).
  - reflexivity.
  - reflexivity.
Defined.

(** ** Keys and relationships of the schema *)

Ltac each_relationship H :=
  unfold relationships in H; simpl in H;
  repeat (apply elem_of_cons in H as [->|H]); [..|by apply elem_of_nil in H].

(** X14. Every relationship of a table class points to a table class that
    declares the relationship named by back_populates, pointing back and
    naming the first one; one side is a list and the other a single row; and
    the single-row side has the foreign key column, called after the
    relationship, to the primary key of the other table. *)
Theorem relationships_paired (cls : SQLModel) (rel : relationship) :
  cls ∈ metadata -> rel ∈ relationships cls ->
  exists target back,
    find_model (rel_target rel) = Some target /\ target ∈ metadata
    /\ find_relationship (back_populates rel) target = Some back
    /\ rel_target back = cls_name cls
    /\ back_populates back = rel_name rel
    /\ rel_many back = negb (rel_many rel)
    /\ (rel_many rel = false ->
        exists tbl, tablename target = Some tbl
          /\ (String.append (rel_name rel) "_id", String.append tbl ".id")
             ∈ foreign_keys cls).
Proof.
  intros Hcls Hrel.
  each_class Hcls; each_relationship Hrel; eexists _, _;
    (split_and!; [reflexivity | field_in | reflexivity | reflexivity | reflexivity
                 | reflexivity |]);
    simpl; intros H; try discriminate H; eexists; (split; [reflexivity | field_in]).
Qed.

Lemma relationships_paired_witness :
  exists target back,
    find_model "Prescription" = Some target /\ target ∈ metadata
    /\ find_relationship "medications" target = Some back
    /\ rel_target back = cls_name Medication
    /\ back_populates back = "prescription"
    /\ rel_many back = negb false
    /\ (false = false ->
        exists tbl, tablename target = Some tbl
          /\ (String.append "prescription" "_id", String.append tbl ".id")
             ∈ foreign_keys Medication).
Proof.
  apply (relationships_paired Medication
           (Relationship "prescription" "Prescription" false "medications")).
  - field_in.
  - field_in.
Defined.

(** X15. Every table class has the single primary key id, an Optional int that
    defaults to None; the table names are distinct; every foreign key is a
    required int column and names the primary key of a declared table; email
    of User is the only unique column; and no class outside the table
    classes declares a table, a key or a unique column. *)
Theorem schema_keys :
  Forall (fun cls => table cls = true /\ primary_keys cls = ["id"]
                     /\ find_field "id" (model_fields cls)
                        = Some (Field "id" (Optional T_int)
                                  [default VNone; primary_key true])) metadata
  /\ NoDup (tablename <$> metadata)
  /\ Forall (fun cls => Forall (fun fk : string * string =>
               exists parent kw,
                 find_table (split_dot fk.2).1 = Some parent
                 /\ parent ∈ metadata
                 /\ (split_dot fk.2).2 = "id"
                 /\ find_field fk.1 (model_fields cls) = Some (Field fk.1 T_int kw)
                 /\ get_default kw = Required) (foreign_keys cls)) metadata
  /\ unique_columns <$> metadata = [["email"]; []; []; []; []]
  /\ Forall (fun cls => cls ∈ metadata
                        \/ (table cls = false /\ tablename cls = None
                            /\ primary_keys cls = [] /\ foreign_keys cls = []
                            /\ unique_columns cls = [] /\ relationships cls = []))
       all_models.
Proof.
  split_and!.
  - repeat constructor.
  - apply (bool_decide_unpack _). by vm_compute.
  - repeat (apply List.Forall_cons;
            [ unfold foreign_keys; simpl;
              repeat (apply List.Forall_cons;
                      [ eexists _, _; split_and!;
                        [ reflexivity | field_in | reflexivity | reflexivity | reflexivity ]
                      | ]);
              apply List.Forall_nil | ]).
    apply List.Forall_nil.
  - reflexivity.
  - repeat (apply List.Forall_cons;
            [ first [ solve [left; field_in] | right; by split_and! ] | ]).
    apply List.Forall_nil.
Qed.

(** ** Decimal places *)

(** An attribute whose outcome does not depend on the clock is accepted
    exactly when its own validation reports nothing. *)
Lemma accepted_for_iff (cls : SQLModel) (input : list (string * value)) (name : string)
    (t : annotation) (kw : list kwarg) (v : value) (es : list ErrorDetails) (c : Clock) :
  NoDup (field_names cls) ->
  Field name t kw ∈ model_fields cls ->
  get name input = Some v ->
  (forall c1, errors_of (validate t kw v c1).1 = es) ->
  accepted_for cls input c name <-> es = [].
Proof.
  intros Hnd Hf Hget Hes. split.
  - intros Hacc. destruct es as [|e es]; [done|exfalso].
    assert (at_loc (LField name) e ∈ errors_of (model_validate cls input c).1) as H.
    { apply (validate_fields_error_kept _ _ (Field name t kw)); [done|].
      intros c1. rewrite (validate_field_given _ _ _ _ v), Hes by done. left. }
    apply (proj1 (Forall_forall _ _) Hacc _ H). apply names_field_at_loc.
  - intros ->. by eapply field_accepted.
Qed.

Lemma errors_of_checked {A} (a : A) (es : list ErrorDetails) :
  errors_of (checked a es) = es.
Proof. by destruct es. Qed.

(** X16. In AnalysisSession, Medication and MedicationCreate a confidence_score is
    taken exactly when it lies between 0.0 and 1.0 and has no digit after the
    third decimal place, and the instance then holds it as given; a score
    with more decimal places is refused with an error naming
    confidence_score: it is not rounded. *)
Theorem confidence_score_exact (cls : SQLModel) (input : list (string * value))
    (v : value) (d : Decimal) (c : Clock) :
  cls ∈ [AnalysisSession; Medication; MedicationCreate] ->
  get "confidence_score" input = Some v ->
  as_decimal v = Some d ->
  (accepted_for cls input c "confidence_score"
   <-> ~ Dlt d D0_0 /\ ~ Dlt D1_0 d /\ within_decimal_places 3 d = true)
  /\ (within_decimal_places 3 d = false -> rejected_for cls input c "confidence_score")
  /\ (accepted_for cls input c "confidence_score" ->
      instance_holds cls input c "confidence_score" (VDecimal d)).
Proof.
  intros Hcls Hget Hd.
  assert (Field "confidence_score" (Optional T_Decimal)
            [default VNone; decimal_places 3; ge D0_0; le D1_0] ∈ model_fields cls
          /\ NoDup (field_names cls)) as [Hin Hnd].
  { repeat (apply elem_of_cons in Hcls as [->|Hcls]);
      [| | |by apply elem_of_nil in Hcls]; (split; [field_in | names_distinct]). }
  pose proof (accepted_for_iff cls input "confidence_score" _ _ v _ c Hnd Hin Hget
                (fun c1 => eq_trans
                   (f_equal (fun x => errors_of x.1) (validate_confidence_score v d c1 Hd))
                   (errors_of_checked _ _))) as Hiff.
  assert (accepted_for cls input c "confidence_score"
          <-> ~ Dlt d D0_0 /\ ~ Dlt D1_0 d /\ within_decimal_places 3 d = true) as Hacc.
  { rewrite Hiff, <- !Dleb_true.
    destruct (Dleb D0_0 d), (Dleb d D1_0), (within_decimal_places 3 d); simpl;
      split; try done; by intros (? & ? & ?). }
  split_and!; [done| |].
  - intros Hp.
    eapply (field_rejected _ _ _ _ _ _ (mkError [] decimal_max_places)); [done..|].
    intros c1. rewrite (validate_confidence_score v d) by done. rewrite Hp.
    cbn [fst]. rewrite errors_of_checked. apply elem_of_app. right. apply elem_of_app. right. left.
  - intros (Hlo & Hhi & Hp)%Hacc r c' Hv.
    destruct (field_of_instance _ _ _ _ _ _ Hnd Hin Hv) as (x & c1 & c2 & Hr & Hf).
    rewrite (validate_field_given _ _ _ _ v) in Hf by done.
    rewrite (validate_confidence_score v d) in Hf by done.
    apply Dleb_true in Hlo, Hhi. rewrite Hlo, Hhi, Hp in Hf. simpl in Hf.
    by injection Hf as <- _.
Qed.

Lemma confidence_score_exact_witness :
  (accepted_for MedicationCreate
     [("name", VStr "Amoxicillin"); ("confidence_score", VDecimal (mkDecimal 1234 (-4)))]
     epoch_clock "confidence_score"
   <-> ~ Dlt (mkDecimal 1234 (-4)) D0_0 /\ ~ Dlt D1_0 (mkDecimal 1234 (-4))
       /\ within_decimal_places 3 (mkDecimal 1234 (-4)) = true)
  /\ (within_decimal_places 3 (mkDecimal 1234 (-4)) = false ->
      rejected_for MedicationCreate
        [("name", VStr "Amoxicillin"); ("confidence_score", VDecimal (mkDecimal 1234 (-4)))]
        epoch_clock "confidence_score")
  /\ (accepted_for MedicationCreate
        [("name", VStr "Amoxicillin"); ("confidence_score", VDecimal (mkDecimal 1234 (-4)))]
        epoch_clock "confidence_score" ->
      instance_holds MedicationCreate
        [("name", VStr "Amoxicillin"); ("confidence_score", VDecimal (mkDecimal 1234 (-4)))]
        epoch_clock "confidence_score" (VDecimal (mkDecimal 1234 (-4)))).
Proof.
  apply (confidence_score_exact MedicationCreate _ (VDecimal (mkDecimal 1234 (-4)))).
  - field_in.
  - reflexivity.
  - reflexivity.
Defined.

Example confidence_score_not_rounded :
  (model_validate MedicationCreate
     [("name", VStr "Amoxicillin"); ("confidence_score", VDecimal (mkDecimal 1234 (-4)))]
     epoch_clock).1
  = Invalid [mkError [LField "confidence_score"] decimal_max_places].
Proof. reflexivity. Qed.

Lemma validate_processing_time (v : value) (d : Decimal) (c : Clock) :
  as_decimal v = Some d ->
  validate (Optional T_Decimal) [default VNone; decimal_places 3] v c
  = (if within_decimal_places 3 d then Valid (VDecimal d)
     else Invalid [mkError [] decimal_max_places], c).
Proof.
  intros H. assert (v <> VNone) by (by intros ->).
  transitivity (validate_Decimal [default VNone; decimal_places 3] v, c).
  { by destruct v. }
  unfold validate_Decimal. rewrite H. unfold check_decimal_places; simpl.
  by destruct (within_decimal_places 3 d).
Qed.

(** X17. processing_time_seconds of AnalysisSession has no range: a Decimal of any
    sign and size is taken when it has no digit after the third decimal
    place, and refused with an error naming the attribute otherwise. *)
Theorem processing_time_places (input : list (string * value)) (v : value) (d : Decimal)
    (c : Clock) :
  get "processing_time_seconds" input = Some v ->
  as_decimal v = Some d ->
  (within_decimal_places 3 d = true ->
     accepted_for AnalysisSession input c "processing_time_seconds"
     /\ instance_holds AnalysisSession input c "processing_time_seconds" (VDecimal d))
  /\ (within_decimal_places 3 d = false ->
     rejected_for AnalysisSession input c "processing_time_seconds").
Proof.
  intros Hget Hd.
  assert (Field "processing_time_seconds" (Optional T_Decimal)
            [default VNone; decimal_places 3] ∈ model_fields AnalysisSession) as Hin
    by field_in.
  assert (NoDup (field_names AnalysisSession)) as Hnd by names_distinct.
  split; intros Hp.
  - split.
    + eapply field_accepted; [done..|]. intros c1.
      by rewrite (validate_processing_time v d), Hp.
    + intros r c' Hv.
      destruct (field_of_instance _ _ _ _ _ _ Hnd Hin Hv) as (x & c1 & c2 & Hr & Hf).
      rewrite (validate_field_given _ _ _ _ v) in Hf by done.
      rewrite (validate_processing_time v d), Hp in Hf by done.
      by injection Hf as <- _.
  - eapply (field_rejected _ _ _ _ _ _ (mkError [] decimal_max_places)); [done..|].
    intros c1. rewrite (validate_processing_time v d), Hp by done. left.
Qed.

Lemma processing_time_places_witness :
  (within_decimal_places 3 (mkDecimal (-2500) (-3)) = true ->
     accepted_for AnalysisSession
       [("processing_time_seconds", VDecimal (mkDecimal (-2500) (-3)));
        ("user_id", VInt 1); ("image_id", VInt 1)] epoch_clock "processing_time_seconds"
     /\ instance_holds AnalysisSession
       [("processing_time_seconds", VDecimal (mkDecimal (-2500) (-3)));
        ("user_id", VInt 1); ("image_id", VInt 1)] epoch_clock "processing_time_seconds"
       (VDecimal (mkDecimal (-2500) (-3))))
  /\ (within_decimal_places 3 (mkDecimal (-2500) (-3)) = false ->
     rejected_for AnalysisSession
       [("processing_time_seconds", VDecimal (mkDecimal (-2500) (-3)));
        ("user_id", VInt 1); ("image_id", VInt 1)] epoch_clock "processing_time_seconds").
Proof.
  apply (processing_time_places _ (VDecimal (mkDecimal (-2500) (-3)))).
  - reflexivity.
  - reflexivity.
Defined.

(** ** All the errors, or the instance *)

Lemma validate_flat_Invalid (t : annotation) (kw : list kwarg) (v : value) (c : Clock)
    (es : list ErrorDetails) :
  flat t = true -> (validate t kw v c).1 = Invalid es -> es <> [].
Proof.
  revert v. induction t; intros v; simpl; try done.
  - unfold validate_int. destruct v; try (by intros _ [= <-]).
    intros _. destruct (check_bounds kw (Dint n)); [done | by intros [= <-]].
  - unfold validate_str. destruct v; try (by intros _ [= <-]).
    intros _. destruct (check_max_length kw s); [done | by intros [= <-]].
  - destruct v; try done; by intros _ [= <-].
  - destruct v; try done; by intros _ [= <-].
  - unfold validate_Decimal. destruct (as_decimal v); [|by intros _ [= <-]].
    intros _. destruct (_ ++ _); [done | by intros [= <-]].
  - unfold validate_AnalysisStatus. destruct v; try (by intros _ [= <-]).
    intros _. destruct (AnalysisStatus_.of_value s); [done | by intros [= <-]].
  - unfold validate_MedicationType. destruct v; try (by intros _ [= <-]).
    intros _. destruct (MedicationType_.of_value s); [done | by intros [= <-]].
  - intros Hflat. destruct v; try done; by apply IHt.
  - destruct v; try done; by intros _ [= <-].
Qed.

Lemma validate_field_flat_errors (f : field) (kv : list (string * value)) (c c' : Clock) :
  flat f.2.1 = true ->
  errors_of (validate_field validate f kv c).1
  = errors_of (validate_field validate f kv c').1.
Proof.
  destruct f as [n [t kw]]. unfold validate_field. simpl. intros Hflat.
  destruct (get n kv).
  - by rewrite (validate_flat_outcome t kw v c c').
  - by destruct (get_default kw) as [|d|[]].
Qed.

Lemma validate_field_flat_Valid (f : field) (kv : list (string * value)) (c : Clock) :
  flat f.2.1 = true ->
  errors_of (validate_field validate f kv c).1 = [] ->
  exists v, (validate_field validate f kv c).1 = Valid v.
Proof.
  destruct f as [n [t kw]]. unfold validate_field. simpl. intros Hflat.
  destruct (get n kv) as [x|].
  - destruct (validate t kw x c).1 as [v|es] eqn:E; [by eexists|].
    simpl. intros ->. by apply validate_flat_Invalid in E.
  - destruct (get_default kw) as [|d|[]]; simpl; [done | by eexists..].
Qed.

(** X18. Validation of a class without list and model attributes builds the
    instance exactly when no attribute, taken alone, reports an error;
    otherwise the errors name exactly the attributes that do: every violation
    is reported, not only the first. *)
Theorem errors_are_complete (cls : SQLModel) (input : list (string * value)) (c : Clock) :
  Forall (fun f : field => flat f.2.1 = true) (model_fields cls) ->
  ((exists r c', model_validate cls input c = (Valid r, c'))
   <-> forall f, f ∈ model_fields cls ->
         errors_of (validate_field validate f input c).1 = [])
  /\ (forall name,
        Exists (names_field name) (errors_of (model_validate cls input c).1)
        <-> exists f, f ∈ model_fields cls /\ f.1 = name
                      /\ errors_of (validate_field validate f input c).1 <> []).
Proof.
  intros Hflat. pose proof (proj1 (Forall_forall _ _) Hflat) as Hfl. split.
  - split.
    + intros (r & c' & H%validate_fields_Valid) f Hf.
      assert (exists a c1 c2, validate_field validate f input c1 = (Valid a, c2))
        as (a & c1 & c2 & Ha).
      { clear -H Hf. induction H as [|g b fs r [_ (c1 & c2 & Hg)] _ IH].
        - by apply elem_of_nil in Hf.
        - destruct b as [k a]. apply elem_of_cons in Hf as [->|Hf]; [by eexists _, _, _|].
          by apply IH. }
      rewrite (validate_field_flat_errors f input c c1) by (by apply Hfl).
      by rewrite Ha.
    + unfold model_validate. revert c.
      induction (model_fields cls) as [|f fs IH]; intros c Hok; [by eexists _, _|].
      apply Forall_cons in Hflat as [Hf Hflat].
      destruct (validate_field_flat_Valid f input c Hf) as [v Hv]; [apply Hok; left|].
      destruct (IH Hflat (fun g Hg => proj1 (Forall_forall _ _) Hflat g Hg)
                  (validate_field validate f input c).2) as (r & c' & Hr).
      { intros g Hg. rewrite (validate_field_flat_errors g input _ c)
          by (by apply (proj1 (Forall_forall _ _) Hflat)). apply Hok. by right. }
      exists ((f.1, v) :: r), c'. rewrite validate_fields_cons, Hv, Hr. done.
  - intros name. rewrite Exists_exists. split.
    + intros (e & He & Hname).
      apply validate_fields_error_origin in He as (f & c1 & e' & Hf & He' & ->).
      apply names_field_at_loc_inv in Hname. exists f. split_and!; [done..|].
      rewrite (validate_field_flat_errors f input c c1) by (by apply Hfl).
      intros E. rewrite E in He'. by apply elem_of_nil in He'.
    + intros (f & Hf & <- & Hne).
      destruct (errors_of (validate_field validate f input c).1) as [|e es] eqn:E; [done|].
      exists (at_loc (LField f.1) e). split; [|apply names_field_at_loc].
      apply validate_fields_error_kept; [done|]. intros c1.
      rewrite (validate_field_flat_errors f input c1 c) by (by apply Hfl).
      rewrite E. left.
Qed.

Lemma errors_are_complete_witness :
  ((exists r c',
      model_validate MedicationCreate
        [("order_index", VInt (-1)); ("confidence_score", VDecimal (mkDecimal 15 (-1)))]
        epoch_clock = (Valid r, c'))
   <-> forall f, f ∈ model_fields MedicationCreate ->
         errors_of (validate_field validate f
           [("order_index", VInt (-1)); ("confidence_score", VDecimal (mkDecimal 15 (-1)))]
           epoch_clock).1 = [])
  /\ (forall name,
        Exists (names_field name) (errors_of (model_validate MedicationCreate
           [("order_index", VInt (-1)); ("confidence_score", VDecimal (mkDecimal 15 (-1)))]
           epoch_clock).1)
        <-> exists f, f ∈ model_fields MedicationCreate /\ f.1 = name
                      /\ errors_of (validate_field validate f
           [("order_index", VInt (-1)); ("confidence_score", VDecimal (mkDecimal 15 (-1)))]
           epoch_clock).1 <> []).
Proof.
  apply (errors_are_complete MedicationCreate). repeat constructor.
Defined.

Example three_errors_at_once :
  (model_validate MedicationCreate
     [("order_index", VInt (-1)); ("confidence_score", VDecimal (mkDecimal 15 (-1)))]
     epoch_clock).1
  = Invalid [mkError [LField "name"] missing;
             mkError [LField "order_index"] greater_than_equal;
             mkError [LField "confidence_score"] less_than_equal].
Proof. reflexivity. Qed.
